(** * workflow-monitor: the state-synthesis and live-merge engine

    A shallow embedding of [db.py], [htcondor_poll.py] and the monitor loop
    of [display.py], with the properties of the specification stated and
    proved over it.

    Conventions of the embedding:
    - a Python [dict] with a fixed literal content or built by a loop is an
      stdpp [gmap]; a [dict] that is a row with a fixed set of columns is a
      record;
    - [Optional[T]] is [option T]; Python truthiness is written out
      ([truthy_ts]: [None] and [0] are both false);
    - timestamps are epoch instants on an exact integer grid ([Z]); the
      percentage, which is a quotient, the poll interval and a fractional
      duration are rationals ([Q]);
    - code that may raise returns a [result]; code that reads the clock, the
      event store or the queue takes what it reads as an argument. *)

From Stdlib Require Import ZArith QArith Qround Lia.
From stdpp Require Import gmap strings list sorting pretty.

Local Open Scope string_scope.
Local Open Scope Z_scope.

(** ** Python exceptions and results *)

Module Py.

(** The exception classes the program names or can meet at its two
    external boundaries (sqlite3 and the HTCondor bindings/subprocess),
    and those its arithmetic and its calls of [time.sleep] can raise.
    All but [KeyboardInterrupt] derive from [Exception]. *)
Inductive exn : Type :=
  | OperationalError      (* sqlite3.OperationalError *)
  | DatabaseError         (* any other sqlite3.DatabaseError *)
  | ImportError
  | TimeoutExpired        (* subprocess.TimeoutExpired *)
  | FileNotFoundError
  | PermissionError
  | JSONDecodeError
  | UnicodeDecodeError
  | RuntimeError
  | UnboundLocalError
  | ValueError            (* time.sleep of a negative length *)
  | ZeroDivisionError
  | KeyboardInterrupt.

#[global] Instance exn_eq_dec : EqDecision exn.
Proof. solve_decision. Defined.

(** [isinstance(e, Exception)] *)
Definition is_Exception (e : exn) : bool :=
  match e with KeyboardInterrupt => false | _ => true end.

Inductive result (A : Type) : Type :=
  | Ok (a : A)
  | Raise (e : exn).
Arguments Ok {A} a.
Arguments Raise {A} e.

Definition bind {A B} (r : result A) (k : A -> result B) : result B :=
  match r with Ok a => k a | Raise e => Raise e end.

(** [try: body except <handled>: handler] *)
Definition try_except {A} (body : result A) (handled : exn -> bool)
    (handler : result A) : result A :=
  match body with
  | Ok a => Ok a
  | Raise e => if handled e then handler else Raise e
  end.

Definition raises {A} (r : result A) : Prop := exists e, r = Raise e.

(** [a / b] on numbers, one of them a float: true division, which raises
    at a zero divisor. *)
Definition truediv (a b : Q) : result Q :=
  if Qeq_bool b 0 then Raise ZeroDivisionError else Ok (a / b)%Q.

End Py.
Import Py.

(** ** db.py: state helpers and data classes *)

Module Db.

(** [_STATE_MAP] *)
Definition _STATE_MAP : gmap string string :=
  list_to_map
    [ ("POST_SCRIPT_SUCCESS", "SUCCESS");
      ("JOB_SUCCESS", "SUCCESS");
      ("POST_SCRIPT_FAILURE", "FAILED");
      ("JOB_FAILURE", "FAILED");
      ("EXECUTE", "RUNNING");
      ("SUBMIT", "QUEUED");
      ("PRE_SCRIPT_STARTED", "PRE");
      ("PRE_SCRIPT_SUCCESS", "PRE");
      ("POST_SCRIPT_STARTED", "POST");
      ("POST_SCRIPT_TERMINATED", "POST");
      ("JOB_TERMINATED", "DONE");
      ("JOB_HELD", "HELD") ].

(** [STATE_STYLE] *)
Definition STATE_STYLE : gmap string string :=
  list_to_map
    [ ("SUCCESS", "bold green");
      ("FAILED", "bold red");
      ("RUNNING", "bold cyan");
      ("QUEUED", "yellow");
      ("PRE", "blue");
      ("POST", "blue");
      ("HELD", "magenta");
      ("DONE", "green");
      ("UNKNOWN", "dim") ].

(** [JOB_TYPE_LABEL] *)
Definition JOB_TYPE_LABEL : gmap string string :=
  list_to_map
    [ ("compute", "compute");
      ("stage-in-tx", "stage-in");
      ("stage-out-tx", "stage-out");
      ("create-dir", "dir-create");
      ("stage-worker", "stage-worker");
      ("cleanup", "cleanup");
      ("registration", "register") ].

(** [d.get(k, dflt)] *)
Definition dict_get {K V} `{Countable K} (d : gmap K V) (k : K) (dflt : V) : V :=
  match d !! k with Some v => v | None => dflt end.

Definition display_state (raw_state : option string) : string :=
  match raw_state with
  | None => "UNSUBMITTED"
  | Some raw => dict_get _STATE_MAP raw raw
  end.

(** The keys of the mapping table of the specification. *)
Definition mapped_raw_states : list string :=
  [ "POST_SCRIPT_SUCCESS"; "JOB_SUCCESS"; "POST_SCRIPT_FAILURE"; "JOB_FAILURE";
    "EXECUTE"; "SUBMIT"; "PRE_SCRIPT_STARTED"; "PRE_SCRIPT_SUCCESS";
    "POST_SCRIPT_STARTED"; "POST_SCRIPT_TERMINATED"; "JOB_TERMINATED";
    "JOB_HELD" ].

(** [f"{n:02d}"] for a natural [n]. *)
Definition pad2 (n : Z) : string :=
  if n <? 10 then "0" +:+ pretty n else pretty n.

(** [fmt_duration]; [int(seconds)] is the identity on the integer grid. *)
Definition fmt_duration (seconds : option Z) : string :=
  match seconds with
  | None => "-"
  | Some sec =>
      if sec <? 0 then "-"
      else if sec <? 60 then pretty sec +:+ "s"
      else
        let m := sec / 60 in
        let s := sec mod 60 in
        if m <? 60 then pretty m +:+ "m" +:+ pad2 s +:+ "s"
        else
          let h := m / 60 in
          let m' := m mod 60 in
          pretty h +:+ "h" +:+ pad2 m' +:+ "m" +:+ pad2 s +:+ "s"
  end.

Record JobRecord : Type := mkJobRecord {
  job_id : Z;
  exec_job_id : string;
  type_desc : string;
  raw_state : option string;
  exitcode : option Z;
  site : option string;
  submit_time : option Z;
  start_time : option Z;
  end_time : option Z
}.

#[global] Instance JobRecord_eq_dec : EqDecision JobRecord.
Proof. solve_decision. Defined.

Definition disp_state (j : JobRecord) : string := display_state (raw_state j).

(** Truthiness of an [Optional[float]]: [None] and [0.0] are false. *)
Definition truthy_ts (t : option Z) : bool :=
  match t with
  | Some v => negb (v =? 0)
  | None => false
  end.

(** Subtraction of two optional instants known to be present. *)
Definition ts_val (t : option Z) : Z := default 0 t.

(** [JobRecord.duration]; [now] is the reading of [datetime.now()] taken
    when the property is evaluated. *)
Definition duration (now : Z) (j : JobRecord) : option Z :=
  if truthy_ts (start_time j) && truthy_ts (end_time j) then
    Some (ts_val (end_time j) - ts_val (start_time j))
  else if truthy_ts (start_time j) && bool_decide (disp_state j = "RUNNING") then
    Some (now - ts_val (start_time j))
  else None.

Definition is_compute (j : JobRecord) : bool :=
  bool_decide (type_desc j = "compute").

Definition short_name (j : JobRecord) : string := exec_job_id j.

(** One element of [recent_events]: the columns of [get_recent_events]. *)
Record Event : Type := mkEvent {
  ev_exec_job_id : string;
  ev_type_desc : string;
  ev_state : string;
  ev_timestamp : Z
}.

Record WorkflowSnapshot : Type := mkSnapshot {
  wf_state : string;
  wf_status : option Z;
  wf_start : option Z;
  wf_end : option Z;
  jobs : list JobRecord;
  recent_events : list Event;
  poll_time : Z
}.

Definition is_running (s : WorkflowSnapshot) : bool :=
  bool_decide (wf_state s = "WORKFLOW_STARTED").

Definition is_complete (s : WorkflowSnapshot) : bool :=
  bool_decide (wf_state s = "WORKFLOW_TERMINATED").

Definition succeeded (s : WorkflowSnapshot) : bool :=
  is_complete s && bool_decide (wf_status s = Some 0).


(** [WorkflowSnapshot.elapsed], with the clock reading as for [duration]. *)
Definition elapsed (now : Z) (s : WorkflowSnapshot) : option Z :=
  match wf_start s with
  | None => None
  | Some start =>
      let end_ := if truthy_ts (wf_end s) then ts_val (wf_end s) else now in
      Some (end_ - start)
  end.

(** [sum(1 for j in js if p(j))] *)
Definition count_if (p : JobRecord -> bool) (js : list JobRecord) : nat :=
  foldr (fun j acc => if p j then (1 + acc)%nat else acc) 0%nat js.

Definition job_counts (s : WorkflowSnapshot) : gmap string nat :=
  foldl (fun counts j =>
           <[disp_state j := (dict_get counts (disp_state j) 0 + 1)%nat]> counts)
        ∅ (jobs s).

Definition compute_jobs (s : WorkflowSnapshot) : list JobRecord :=
  filter (fun j => is_compute j = true) (jobs s).

Definition infra_jobs (s : WorkflowSnapshot) : list JobRecord :=
  filter (fun j => is_compute j = false) (jobs s).

Definition total_jobs (s : WorkflowSnapshot) : nat := length (jobs s).

Definition done_count (s : WorkflowSnapshot) : nat :=
  count_if (fun j => bool_decide (disp_state j = "SUCCESS")) (jobs s).

Definition failed_count (s : WorkflowSnapshot) : nat :=
  count_if (fun j => bool_decide (disp_state j = "FAILED")) (jobs s).

Definition running_count (s : WorkflowSnapshot) : nat :=
  count_if (fun j => bool_decide (disp_state j = "RUNNING")) (jobs s).

Definition queued_count (s : WorkflowSnapshot) : nat :=
  count_if (fun j => bool_decide (disp_state j ∈ ["QUEUED"; "PRE"; "POST"])) (jobs s).

Definition progress_pct (s : WorkflowSnapshot) : Q :=
  let total := total_jobs s in
  if (total =? 0)%nat then 0%Q
  else (100 * inject_Z (Z.of_nat (done_count s)) / inject_Z (Z.of_nat total))%Q.

(** A call of [progress_pct], with the fault of its division: the value
    it returns, or the [ZeroDivisionError] that [/] raises at a zero
    [total]. *)
Definition progress_pct_call (s : WorkflowSnapshot) : result Q :=
  let total := total_jobs s in
  if (total =? 0)%nat then Ok 0%Q
  else truediv (100 * inject_Z (Z.of_nat (done_count s))) (inject_Z (Z.of_nat total)).

(** *** The event store

    The tables of the stampede database that the queries read, each a list
    of rows in storage order. *)

Record job_row : Type := mkJob {
  j_job_id : Z;
  j_exec_job_id : string;
  j_type_desc : string
}.

Record job_instance_row : Type := mkJobInstance {
  ji_job_instance_id : Z;
  ji_job_id : Z;
  ji_job_submit_seq : Z;
  ji_exitcode : option Z;
  ji_site : option string
}.

Record jobstate_row : Type := mkJobState {
  js_job_instance_id : Z;
  js_state : string;
  js_timestamp : Z;
  js_jobstate_submit_seq : Z
}.

Record workflowstate_row : Type := mkWorkflowState {
  ws_state : string;
  ws_timestamp : Z;
  ws_status : option Z
}.

Record Database : Type := mkDatabase {
  tbl_job : list job_row;
  tbl_job_instance : list job_instance_row;
  tbl_jobstate : list jobstate_row;
  tbl_workflowstate : list workflowstate_row
}.

(** [ORDER BY]: the rows sorted by the relation "comes no later than". *)
Definition order_by {A} (R : relation A) `{!RelDecision R} (rows : list A) : list A :=
  merge_sort R rows.

(** [ORDER BY js.timestamp DESC, js.jobstate_submit_seq DESC] *)
Definition latest_first (a b : jobstate_row) : Prop :=
  js_timestamp b < js_timestamp a \/
  (js_timestamp b = js_timestamp a /\
   js_jobstate_submit_seq b <= js_jobstate_submit_seq a).

#[global] Instance latest_first_dec : RelDecision latest_first.
Proof. intros a b. unfold latest_first. apply _. Defined.

(** [ORDER BY timestamp DESC] and [ORDER BY timestamp] on [workflowstate] *)
Definition ws_desc (a b : workflowstate_row) : Prop := ws_timestamp b <= ws_timestamp a.
Definition ws_asc (a b : workflowstate_row) : Prop := ws_timestamp a <= ws_timestamp b.

#[global] Instance ws_desc_dec : RelDecision ws_desc.
Proof. intros a b. unfold ws_desc. apply _. Defined.
#[global] Instance ws_asc_dec : RelDecision ws_asc.
Proof. intros a b. unfold ws_asc. apply _. Defined.

(** [ORDER BY ji2.job_submit_seq DESC] *)
Definition ji_desc (a b : job_instance_row) : Prop :=
  ji_job_submit_seq b <= ji_job_submit_seq a.
#[global] Instance ji_desc_dec : RelDecision ji_desc.
Proof. intros a b. unfold ji_desc. apply _. Defined.

(** [ORDER BY j.job_id] *)
Definition job_asc (a b : job_row) : Prop := j_job_id a <= j_job_id b.
#[global] Instance job_asc_dec : RelDecision job_asc.
Proof. intros a b. unfold job_asc. apply _. Defined.

(** [MIN(col)] and [MAX(col)]: [NULL] over no rows. *)
Definition sql_min (ts : list Z) : option Z :=
  foldl (fun acc t => match acc with None => Some t | Some m => Some (Z.min m t) end)
        None ts.

Definition sql_max (ts : list Z) : option Z :=
  foldl (fun acc t => match acc with None => Some t | Some m => Some (Z.max m t) end)
        None ts.

(** [FROM jobstate js JOIN job_instance ji2
     ON js.job_instance_id = ji2.job_instance_id WHERE ji2.job_id = jid] *)
Definition job_transitions (d : Database) (jid : Z) : list jobstate_row :=
  js ← tbl_jobstate d;
  ji2 ← tbl_job_instance d;
  if bool_decide (js_job_instance_id js = ji_job_instance_id ji2 /\ ji_job_id ji2 = jid)
  then [js] else [].

(** [FROM job_instance ji2 WHERE ji2.job_id = jid] *)
Definition job_instances (d : Database) (jid : Z) : list job_instance_row :=
  filter (fun ji2 => ji_job_id ji2 = jid) (tbl_job_instance d).

(** The rows of a job in one of the given states. *)
Definition transitions_in (states : list string) (d : Database) (jid : Z)
    : list jobstate_row :=
  filter (fun js => js_state js ∈ states) (job_transitions d jid).

(** The row that the [current_state] subquery selects ([LIMIT 1]). *)
Definition latest_transition (d : Database) (jid : Z) : option jobstate_row :=
  head (order_by latest_first (job_transitions d jid)).

Definition terminal_states : list string :=
  ["JOB_TERMINATED"; "JOB_SUCCESS"; "JOB_FAILURE"].

(** One row of the [get_jobs] query, as the [JobRecord] built from it. *)
Definition job_record (d : Database) (j : job_row) : JobRecord :=
  let jid := j_job_id j in
  {| job_id := jid;
     exec_job_id := j_exec_job_id j;
     type_desc := j_type_desc j;
     raw_state := js_state <$> latest_transition d jid;
     exitcode := head (order_by ji_desc (job_instances d jid)) ≫= ji_exitcode;
     site := head (order_by ji_desc (job_instances d jid)) ≫= ji_site;
     submit_time := sql_min (js_timestamp <$> transitions_in ["SUBMIT"] d jid);
     start_time := sql_min (js_timestamp <$> transitions_in ["EXECUTE"] d jid);
     end_time := sql_max (js_timestamp <$> transitions_in terminal_states d jid) |}.

(** The rows of the four queries, read from the store contents. *)

Record WfRow : Type := mkWfRow {
  wr_state : string;
  wr_timestamp : option Z;
  wr_status : option Z
}.

Definition unknown_wf_row : WfRow :=
  {| wr_state := "UNKNOWN"; wr_timestamp := None; wr_status := None |}.

Definition select_workflow_state (d : Database) : WfRow :=
  match head (order_by ws_desc (tbl_workflowstate d)) with
  | None => unknown_wf_row
  | Some row =>
      {| wr_state := ws_state row;
         wr_timestamp := Some (ws_timestamp row);
         wr_status := ws_status row |}
  end.

Record WfTimes : Type := mkWfTimes {
  wt_start : option Z;
  wt_end : option Z
}.

Definition select_workflow_times (d : Database) : WfTimes :=
  foldl (fun acc row =>
           if bool_decide (ws_state row = "WORKFLOW_STARTED") then
             {| wt_start := Some (ws_timestamp row); wt_end := wt_end acc |}
           else if bool_decide (ws_state row = "WORKFLOW_TERMINATED") then
             {| wt_start := wt_start acc; wt_end := Some (ws_timestamp row) |}
           else acc)
        {| wt_start := None; wt_end := None |}
        (order_by ws_asc (tbl_workflowstate d)).

Definition select_jobs (d : Database) : list JobRecord :=
  job_record d <$> order_by job_asc (tbl_job d).

(** The ordering of [get_recent_events] on the joined rows. *)
Definition event_latest_first (a b : job_row * jobstate_row) : Prop :=
  latest_first (snd a) (snd b).
#[global] Instance event_latest_first_dec : RelDecision event_latest_first.
Proof. intros a b. unfold event_latest_first. apply _. Defined.

Definition select_recent_events (d : Database) (limit : nat) : list Event :=
  let joined : list (job_row * jobstate_row) :=
    j ← tbl_job d;
    ji ← tbl_job_instance d;
    js ← tbl_jobstate d;
    if bool_decide (j_job_id j = ji_job_id ji /\
                    ji_job_instance_id ji = js_job_instance_id js)
    then [(j, js)] else [] in
  (fun '(j, js) =>
     {| ev_exec_job_id := j_exec_job_id j;
        ev_type_desc := j_type_desc j;
        ev_state := js_state js;
        ev_timestamp := js_timestamp js |})
  <$> take limit (order_by event_latest_first joined).

(** *** Vocabulary of the reduction's specification *)

(** [js] is a transition row of job [jid]: a row of [jobstate] attached to
    an instance of the job. *)
Definition attached_to (d : Database) (jid : Z) (js : jobstate_row) : Prop :=
  js ∈ tbl_jobstate d
  /\ exists ji, ji ∈ tbl_job_instance d
       /\ js_job_instance_id js = ji_job_instance_id ji
       /\ ji_job_id ji = jid.

(** [js] is a transition row of job [jid] in one of [states]. *)
Definition transition_of (d : Database) (jid : Z) (states : list string)
    (js : jobstate_row) : Prop :=
  attached_to d jid js /\ js_state js ∈ states.

(** The same rows, possibly stored in another order. *)
Definition same_rows (d d' : Database) : Prop :=
  tbl_jobstate d ≡ₚ tbl_jobstate d' /\ tbl_job_instance d ≡ₚ tbl_job_instance d'.

(** [t] is the least timestamp of the job's rows in [states], or absent
    when there is no such row. *)
Definition earliest_of (d : Database) (jid : Z) (states : list string)
    (t : option Z) : Prop :=
  match t with
  | None => forall js, ~ transition_of d jid states js
  | Some m =>
      (exists js, transition_of d jid states js /\ js_timestamp js = m)
      /\ forall js, transition_of d jid states js -> m <= js_timestamp js
  end.

(** [t] is the greatest timestamp of the job's rows in [states], or absent. *)
Definition latest_of (d : Database) (jid : Z) (states : list string)
    (t : option Z) : Prop :=
  match t with
  | None => forall js, ~ transition_of d jid states js
  | Some m =>
      (exists js, transition_of d jid states js /\ js_timestamp js = m)
      /\ forall js, transition_of d jid states js -> js_timestamp js <= m
  end.

(** The sort key of "most recent": timestamp, then sequence number. *)
Definition recency (js : jobstate_row) : Z * Z :=
  (js_timestamp js, js_jobstate_submit_seq js).

(** [a] is at most as recent as [b]. *)
Definition recency_le (a b : jobstate_row) : Prop :=
  js_timestamp a < js_timestamp b
  \/ (js_timestamp a = js_timestamp b
      /\ js_jobstate_submit_seq a <= js_jobstate_submit_seq b).

(** *** [class StampedeDB]

    The object holds the connection handle; a poll reads the store as it is
    at that moment.  [Store] is what sqlite3 answers during one poll: the
    contents, and for the connection attempt and for each of the four
    queries the exception it raises instead of answering, if any. *)

Inductive Query : Type :=
  | QWorkflowState | QWorkflowTimes | QJobs | QRecentEvents.

Record Store : Type := mkStore {
  contents : Database;
  connect_fault : option exn;
  query_fault : Query -> option exn
}.

Definition Connection : Type := string.

Record StampedeDB : Type := mkStampedeDB {
  db_path : string;
  _conn : option Connection
}.

(** Methods: state passing over the object, with exceptions. *)
Definition M (A : Type) : Type := StampedeDB -> StampedeDB * result A.

Definition m_ret {A} (a : A) : M A := fun self => (self, Ok a).

Definition m_bind {A B} (m : M A) (k : A -> M B) : M B :=
  fun self =>
    match m self with
    | (self', Ok a) => k a self'
    | (self', Raise e) => (self', Raise e)
    end.

Notation "'let*' x ':=' m 'in' k" := (m_bind m (fun x => k))
  (at level 10, x pattern, m at level 100, k at level 200).

Definition connect (w : Store) : M unit :=
  fun self =>
    match connect_fault w with
    | Some e => (self, Raise e)
    | None =>
        ({| db_path := db_path self;
            _conn := Some ("file:" +:+ db_path self +:+ "?mode=ro") |}, Ok tt)
    end.

Definition close : M unit :=
  fun self => ({| db_path := db_path self; _conn := None |}, Ok tt).

Definition _conn_or_raise (w : Store) : M (option Connection) :=
  fun self =>
    match _conn self with
    | None => (let* _ := connect w in fun self' => (self', Ok (_conn self'))) self
    | Some c => (self, Ok (Some c))
    end.

(** [cur.execute(...)] followed by the fetch, on an open connection. *)
Definition execute {A} (w : Store) (q : Query) (rows : Database -> A) : M A :=
  fun self =>
    match query_fault w q with
    | Some e => (self, Raise e)
    | None => (self, Ok (rows (contents w)))
    end.

Definition get_workflow_state (w : Store) : M WfRow :=
  let* _ := _conn_or_raise w in
  execute w QWorkflowState select_workflow_state.

Definition get_workflow_times (w : Store) : M WfTimes :=
  let* _ := _conn_or_raise w in
  execute w QWorkflowTimes select_workflow_times.

Definition get_jobs (w : Store) : M (list JobRecord) :=
  let* _ := _conn_or_raise w in
  execute w QJobs select_jobs.

Definition get_recent_events (w : Store) (limit : nat) : M (list Event) :=
  let* _ := _conn_or_raise w in
  execute w QRecentEvents (fun d => select_recent_events d limit).

(** The [WorkflowSnapshot(...)] call that ends [snapshot]; [now] is the
    clock reading of the [poll_time] default factory. *)
Definition make_snapshot (now : Z) (wf_row : WfRow) (wf_times : WfTimes)
    (js : list JobRecord) (events : list Event) : WorkflowSnapshot :=
  {| wf_state := wr_state wf_row;
     wf_status := wr_status wf_row;
     wf_start := wt_start wf_times;
     wf_end := wt_end wf_times;
     jobs := js;
     recent_events := events;
     poll_time := now |}.

Definition snapshot (w : Store) (now : Z) : M WorkflowSnapshot :=
  fun self =>
    let '(self', r) :=
      (let* wf_row := get_workflow_state w in
       let* wf_times := get_workflow_times w in
       let* js := get_jobs w in
       let* events := get_recent_events w 20 in
       m_ret (wf_row, wf_times, js, events)) self in
    (self',
     bind
       (try_except r
          (fun e => bool_decide (e = OperationalError))
          (Ok (unknown_wf_row, {| wt_start := None; wt_end := None |}, [], [])))
       (fun '(wf_row, wf_times, js, events) =>
          Ok (make_snapshot now wf_row wf_times js events))).

(** The snapshot of the specification's failure semantics. *)
Definition degraded_snapshot (now : Z) : WorkflowSnapshot :=
  {| wf_state := "UNKNOWN"; wf_status := None; wf_start := None; wf_end := None;
     jobs := []; recent_events := []; poll_time := now |}.

(** A single read of a store that answers every query. *)
Definition healthy_read (d : Database) (now : Z) : WorkflowSnapshot :=
  make_snapshot now (select_workflow_state d) (select_workflow_times d)
    (select_jobs d) (select_recent_events d 20).

Definition healthy (w : Store) : Prop :=
  connect_fault w = None /\ forall q, query_fault w q = None.

(** The exception of the first operation of a poll that raises, if any:
    the connection attempt when the object holds no connection, then the
    queries in the order [snapshot] issues them. *)
Definition first_fault (self : StampedeDB) (w : Store) : option exn :=
  match _conn self, connect_fault w with
  | None, Some e => Some e
  | _, _ =>
      match query_fault w QWorkflowState with
      | Some e => Some e
      | None =>
      match query_fault w QWorkflowTimes with
      | Some e => Some e
      | None =>
      match query_fault w QJobs with
      | Some e => Some e
      | None => query_fault w QRecentEvents
      end end end
  end.

(** [t] is the greatest timestamp of the workflow rows in state [st], or
    absent when there is none. *)
Definition latest_workflow_row (d : Database) (st : string) (t : option Z) : Prop :=
  match t with
  | None => forall row, row ∈ tbl_workflowstate d -> ws_state row <> st
  | Some m =>
      (exists row, row ∈ tbl_workflowstate d /\ ws_state row = st /\ ws_timestamp row = m)
      /\ forall row, row ∈ tbl_workflowstate d -> ws_state row = st -> ws_timestamp row <= m
  end.

(** Event [a] is not older than event [b]. *)
Definition newest_first (a b : Event) : Prop := ev_timestamp b <= ev_timestamp a.

(** [ev] reports a transition row of a job of the catalog. *)
Definition event_of (d : Database) (ev : Event) : Prop :=
  exists j ji js,
    j ∈ tbl_job d /\ ji ∈ tbl_job_instance d /\ js ∈ tbl_jobstate d
    /\ j_job_id j = ji_job_id ji
    /\ ji_job_instance_id ji = js_job_instance_id js
    /\ ev = {| ev_exec_job_id := j_exec_job_id j; ev_type_desc := j_type_desc j;
               ev_state := js_state js; ev_timestamp := js_timestamp js |}.

(** [__enter__] and [__exit__]: the [with StampedeDB(path) as db] block. *)
Definition __enter__ (w : Store) : M unit := connect w.
Definition __exit__ : M unit := close.

(** A new object: [StampedeDB(db_path)]. *)
Definition __init__ (path : string) : StampedeDB :=
  {| db_path := path; _conn := None |}.

End Db.

(** ** htcondor_poll.py *)

Module HtcondorPoll.

(** The scalar values a ClassAd attribute can hold. *)
Inductive pyval : Type :=
  | PNone
  | PInt (n : Z)
  | PStr (s : string).

#[global] Instance pyval_eq_dec : EqDecision pyval.
Proof. solve_decision. Defined.

#[global] Instance pyval_countable : Countable pyval.
Proof.
  refine (inj_countable'
    (fun v => match v with
              | PNone => inl tt
              | PInt n => inr (inl n)
              | PStr s => inr (inr s)
              end)
    (fun c => match c with
              | inl _ => PNone
              | inr (inl n) => PInt n
              | inr (inr s) => PStr s
              end) _).
  intros []; reflexivity.
Defined.

(** [bool(v)] *)
Definition truthy (v : pyval) : bool :=
  match v with
  | PNone => false
  | PInt n => negb (n =? 0)
  | PStr s => negb (bool_decide (s = ""))
  end.

(** [bool(s)] for an [Optional[str]] argument. *)
Definition truthy_str (s : option string) : bool :=
  match s with
  | Some v => negb (bool_decide (v = ""))
  | None => false
  end.

(** A job ClassAd as a [dict]. *)
Abbreviation ClassAd := (gmap string pyval).

(** [JOB_STATUS] *)
Definition JOB_STATUS : gmap Z string :=
  list_to_map
    [ (1, "Idle"); (2, "Running"); (3, "Removed"); (4, "Completed");
      (5, "Held"); (6, "TransferOutput"); (7, "Suspended") ].

(** [str(v)] *)
Definition py_str (v : pyval) : string :=
  match v with
  | PNone => "None"
  | PInt n => pretty n
  | PStr s => s
  end.

Section Builtins.

(** The built-in [int] on a string: [None] when it raises [ValueError]. *)
Variable int_of_str : string -> option Z.

(** [format_job_status]; [int(None)] raises [TypeError]. *)
Definition format_job_status (status_code : pyval) : string :=
  let parsed :=
    match status_code with
    | PNone => None
    | PInt n => Some n
    | PStr s => int_of_str s
    end in
  match parsed with
  | Some n => Db.dict_get JOB_STATUS n (py_str status_code)
  | None => py_str status_code
  end.

End Builtins.

(** *** The external queue

    What the interpreter and the pool answer during one fetch. *)

Inductive Schedd : Type :=
  | LocatedSchedd (collector name : string)
  | DefaultSchedd.

(** An imported bindings module ([htcondor] or [htcondor2]). *)
Record Bindings : Type := mkBindings {
  (* ht.param[key] = value *)
  set_param : string -> string -> result unit;
  (* ht.Collector(host).locate(ht.DaemonTypes.Schedd, name); ht.Schedd(ad) *)
  locate_schedd : string -> string -> result unit;
  (* ht.Schedd() *)
  new_schedd : result unit;
  (* [dict(ad) for ad in schedd.query(projection=..., constraint=...)] *)
  schedd_query : Schedd -> list string -> option string -> result (list ClassAd)
}.

Record CompletedProcess : Type := mkCompleted {
  returncode : Z;
  stdout : string
}.

(** A parsed JSON document: a list of ClassAds, or anything else. *)
Inductive json : Type :=
  | JsonList (ads : list ClassAd)
  | JsonOther.

Record CondorEnv : Type := mkCondorEnv {
  (* importlib.import_module(name) *)
  import_module : string -> result Bindings;
  (* subprocess.run(cmd, capture_output=True, text=True, timeout=10) *)
  subprocess_run : list string -> result CompletedProcess;
  (* json.loads(text) *)
  json_loads : string -> result json
}.

(** [os.environ] *)
Abbreviation Environ := (gmap string string).

Definition setdefault (k v : string) (environ : Environ) : Environ :=
  match environ !! k with Some _ => environ | None => <[k := v]> environ end.

(** The arguments of [query_queue]. *)
Record QueueArgs : Type := mkQueueArgs {
  constraint : option string;
  schedd_name : option string;
  collector_host : option string;
  token_path : option string;
  cert_path : option string;
  key_path : option string;
  password_file : option string
}.

Definition projection : list string :=
  [ "ClusterId"; "ProcId"; "JobStatus"; "Cmd"; "RemoteHost"; "QDate";
    "DAGNodeName"; "Owner" ].

Definition opt_str (s : option string) : string := default "" s.

(** The body of the second [try] of [_try_python_bindings]. *)
Definition query_bindings (ht : Bindings) (a : QueueArgs) : result (list ClassAd) :=
  bind (if truthy_str (collector_host a)
        then set_param ht "COLLECTOR_HOST" (opt_str (collector_host a))
        else Ok tt) (fun _ =>
  bind (if truthy_str (schedd_name a) then
          try_except
            (bind (locate_schedd ht (opt_str (collector_host a)) (opt_str (schedd_name a)))
                  (fun _ => Ok (LocatedSchedd (opt_str (collector_host a))
                                              (opt_str (schedd_name a)))))
            is_Exception
            (bind (new_schedd ht) (fun _ => Ok DefaultSchedd))
        else bind (new_schedd ht) (fun _ => Ok DefaultSchedd)) (fun schedd =>
  schedd_query ht schedd projection
    (if truthy_str (constraint a) then constraint a else None))).

(** The [for mod_name in ...] loop of [_try_python_bindings]. *)
Fixpoint try_modules (env : CondorEnv) (a : QueueArgs) (mods : list string)
    : result (option (list ClassAd)) :=
  match mods with
  | [] => Ok None
  | mod_name :: rest =>
      match import_module env mod_name with
      | Raise e =>
          if bool_decide (e = ImportError) then try_modules env a rest else Raise e
      | Ok ht =>
          match query_bindings ht a with
          | Ok ads => Ok (Some ads)
          | Raise e => if is_Exception e then try_modules env a rest else Raise e
          end
      end
  end.

Definition _try_python_bindings (env : CondorEnv) (a : QueueArgs) (environ : Environ)
    : Environ * result (option (list ClassAd)) :=
  let environ :=
    if truthy_str (token_path a)
    then setdefault "_CONDOR_SEC_TOKEN_DIRECTORY" (opt_str (token_path a)) environ
    else environ in
  (environ, try_modules env a ["htcondor"; "htcondor2"]).

(** [not s.strip()]: the text holds nothing but (ASCII) white space. *)
Definition is_space (c : Ascii.ascii) : bool :=
  let n := Ascii.nat_of_ascii c in
  ((9 <=? n) && (n <=? 13) || (28 <=? n) && (n <=? 32))%nat.

Fixpoint is_blank (s : string) : bool :=
  match s with
  | EmptyString => true
  | String c s' => is_space c && is_blank s'
  end.

(** [except (subprocess.TimeoutExpired, FileNotFoundError, json.JSONDecodeError)] *)
Definition subprocess_handled (e : exn) : bool :=
  match e with
  | TimeoutExpired | FileNotFoundError | JSONDecodeError => true
  | _ => false
  end.

Definition _query_via_subprocess (env : CondorEnv) (a : QueueArgs)
    : result (list ClassAd) :=
  let cmd : list string :=
    (["condor_q"; "-json"]
     ++ (if truthy_str (schedd_name a) then ["-name"; opt_str (schedd_name a)] else [])
     ++ (if truthy_str (constraint a) then ["-constraint"; opt_str (constraint a)] else []))%list in
  try_except
    (bind (subprocess_run env cmd) (fun completed =>
       if negb (returncode completed =? 0) || is_blank (stdout completed) then Ok []
       else bind (json_loads env (stdout completed)) (fun data =>
              match data with
              | JsonList ads => Ok ads
              | JsonOther => Ok []
              end)))
    subprocess_handled
    (Ok []).

Definition query_queue (env : CondorEnv) (a : QueueArgs) (environ : Environ)
    : Environ * result (list ClassAd) :=
  let environ :=
    if truthy_str (cert_path a)
    then <["X509_USER_CERT" := opt_str (cert_path a)]> environ else environ in
  let environ :=
    if truthy_str (key_path a)
    then <["X509_USER_KEY" := opt_str (key_path a)]> environ else environ in
  let environ :=
    if truthy_str (password_file a)
    then <["_CONDOR_PASSWORD_FILE" := opt_str (password_file a)]> environ else environ in
  let environ :=
    if truthy_str (collector_host a)
    then setdefault "_CONDOR_COLLECTOR_HOST" (opt_str (collector_host a)) environ
    else environ in
  match _try_python_bindings env a environ with
  | (environ, Raise e) => (environ, Raise e)
  | (environ, Ok (Some ads)) => (environ, Ok ads)
  | (environ, Ok None) => (environ, _query_via_subprocess env a)
  end.

End HtcondorPoll.

(** ** display.py: the job table and the monitor loop *)

Module Display.
Import Db HtcondorPoll.

(** A table cell: a plain string or a rich [Text(text, style=...)]. *)
Inductive Cell : Type :=
  | Plain (s : string)
  | Styled (text style : string).

Definition cell_text (c : Cell) : string :=
  match c with Plain s => s | Styled t _ => t end.

Record Panel : Type := mkPanel {
  panel_title : string;
  panel_rows : list (list Cell)
}.

(** The [condor_map] built at the head of [_make_job_table]. *)
Definition build_condor_map (condor_jobs : option (list ClassAd)) : gmap pyval ClassAd :=
  match condor_jobs with
  | None | Some [] => ∅
  | Some cjs =>
      foldl (fun condor_map cj =>
               let node := dict_get cj "DAGNodeName" (PStr "") in
               if truthy node then <[node := cj]> condor_map else condor_map)
            ∅ cjs
  end.

(** [jobs_to_show = snap.jobs if show_all else snap.compute_jobs()] *)
Definition jobs_to_show (snap : WorkflowSnapshot) (show_all : bool) : list JobRecord :=
  if show_all then jobs snap else compute_jobs snap.

Section JobTable.

Variable int_of_str : string -> option Z.

(** The row added for one job; [now] is the clock read by [job.duration]. *)
Definition job_row_cells (condor_map : gmap pyval ClassAd) (now : Z) (job : JobRecord)
    : list Cell :=
  let state_style := dict_get STATE_STYLE (disp_state job) "" in
  let state_cell := Styled (disp_state job) state_style in
  let exit_cell :=
    match exitcode job with
    | Some c => Styled (pretty c) (if c =? 0 then "green" else "red")
    | None => Styled "-" "dim"
    end in
  let dur_cell := Styled (fmt_duration (duration now job)) "dim" in
  let condor_info : ClassAd := dict_get condor_map (PStr (exec_job_id job)) ∅ in
  let live_cell :=
    if bool_decide (condor_info = ∅) then Styled "" "dim"
    else Styled (format_job_status int_of_str (dict_get condor_info "JobStatus" PNone))
                "cyan" in
  let type_label := dict_get JOB_TYPE_LABEL (type_desc job) (type_desc job) in
  [ Plain (short_name job); Plain type_label; state_cell; exit_cell; dur_cell;
    live_cell ].

(** [_make_job_table]; [clock i] is the clock reading while row [i] is built. *)
Definition _make_job_table (clock : nat -> Z) (snap : WorkflowSnapshot)
    (show_all : bool) (condor_jobs : option (list ClassAd)) : Panel :=
  let condor_map := build_condor_map condor_jobs in
  let shown := jobs_to_show snap show_all in
  let rows := imap (fun i job => job_row_cells condor_map (clock i) job) shown in
  let rows :=
    match shown with
    | [] => (rows ++ [[ Styled "(no jobs yet)" "dim italic";
                        Plain ""; Plain ""; Plain ""; Plain ""; Plain "" ]])%list
    | _ => rows
    end in
  {| panel_title := if negb show_all then "[bold]Compute Jobs[/bold]"
                    else "[bold]All Jobs[/bold]";
     panel_rows := rows |}.

End JobTable.

(** The display states shown in the State column, one per job row. *)
Definition shown_states (snap : WorkflowSnapshot) (show_all : bool) (p : Panel)
    : list string :=
  let n := length (jobs_to_show snap show_all) in
  (fun row => cell_text (default (Plain "") (row !! 2%nat))) <$> take n (panel_rows p).

(** No entry of the live queue names a job of the snapshot. *)
Definition no_overlap (snap : WorkflowSnapshot) (condor_jobs : list ClassAd) : Prop :=
  forall cj job, cj ∈ condor_jobs -> job ∈ jobs snap ->
    dict_get cj "DAGNodeName" (PStr "") <> PStr (exec_job_id job).

(** *** The monitor loop

    [run_monitor] reads the outside world once per refresh.  [Tick] is what
    the [k]-th call of [_refresh] meets: the store, the clock of the
    snapshot's [poll_time], the queue, the reading of [time.time()], and
    whether a [KeyboardInterrupt] arrives during the sleep that follows. *)

Record Tick : Type := mkTick {
  tick_store : Store;
  tick_now : Z;
  tick_condor : CondorEnv;
  tick_ts : Z;
  tick_interrupt : bool
}.

(** What the loop does, in order: the calls of [_refresh], of
    [live.update(build_layout(...))], of [time.sleep], the panels printed
    in single-shot mode and [_print_final_summary]. *)
Inductive Action : Type :=
  | Refresh (k : nat)
  | Update (snap : WorkflowSnapshot) (condor_jobs : list ClassAd) (ts : Z)
  | Sleep (seconds : Q)
  | Print (snap : WorkflowSnapshot) (condor_jobs : list ClassAd) (ts : Z)
  | FinalSummary (snap : WorkflowSnapshot).

Inductive Outcome : Type :=
  | Returned
  | Propagated (e : exn)
  | OutOfFuel.

(** The objects the loop mutates, and what it has done so far. *)
Record MonitorState : Type := mkMonitorState {
  st_db : StampedeDB;
  st_environ : gmap string string;
  st_trace : list Action
}.

Definition emit (ev : Action) (st : MonitorState) : MonitorState :=
  {| st_db := st_db st; st_environ := st_environ st;
     st_trace := (st_trace st ++ [ev])%list |}.

Section Monitor.

Variable world : nat -> Tick.
Variable poll_interval : Q.
Variable queue_args : QueueArgs.

(** [_poll_condor] *)
Definition _poll_condor (env : CondorEnv) (environ : gmap string string)
    : gmap string string * result (list ClassAd) :=
  let '(environ', r) := query_queue env queue_args environ in
  (environ', try_except r is_Exception (Ok [])).

(** [_refresh], at the [k]-th call. *)
Definition _refresh (k : nat) (st : MonitorState)
    : MonitorState * result (WorkflowSnapshot * list ClassAd * Z) :=
  let t := world k in
  let st := emit (Refresh k) st in
  let '(db', r) := snapshot (tick_store t) (tick_now t) (st_db st) in
  match r with
  | Raise e =>
      ({| st_db := db'; st_environ := st_environ st; st_trace := st_trace st |}, Raise e)
  | Ok snap =>
      let '(environ', rc) := _poll_condor (tick_condor t) (st_environ st) in
      let st' := {| st_db := db'; st_environ := environ'; st_trace := st_trace st |} in
      match rc with
      | Raise e => (st', Raise e)
      | Ok condor_jobs => (st', Ok (snap, condor_jobs, tick_ts t))
      end
  end.

(** [time.sleep(poll_interval)] after the [k]-th refresh.  A negative
    length is refused with [ValueError] before any waiting; otherwise the
    wait is where the interrupt of the tick, if any, arrives. *)
Definition sleep (k : nat) (st : MonitorState) : MonitorState * result unit :=
  let st' := emit (Sleep poll_interval) st in
  if negb (Qle_bool 0 poll_interval) then (st', Raise ValueError)
  else if tick_interrupt (world k) then (st', Raise KeyboardInterrupt)
  else (st', Ok tt).

(** The body of [with Live(...)]: the [while True] loop from the [k]-th
    refresh on.  [last] is the variable [snap] of [run_monitor].  The
    result is the exception that leaves the [while], if any. *)
Fixpoint live_loop (fuel : nat) (k : nat) (last : option WorkflowSnapshot)
    (st : MonitorState) : MonitorState * option WorkflowSnapshot * option (result unit) :=
  match fuel with
  | O => (st, last, None)
  | S fuel' =>
      match _refresh k st with
      | (st, Raise e) => (st, last, Some (Raise e))
      | (st, Ok (snap, condor_jobs, ts)) =>
          let st := emit (Update snap condor_jobs ts) st in
          if is_complete snap && negb (is_running snap) then
            match sleep k st with
            | (st, Raise e) => (st, Some snap, Some (Raise e))
            | (st, Ok _) =>
                match _refresh (S k) st with
                | (st, Raise e) => (st, Some snap, Some (Raise e))
                | (st, Ok (snap', condor_jobs', ts')) =>
                    (emit (Update snap' condor_jobs' ts') st, Some snap', Some (Ok tt))
                end
            end
          else
            match sleep k st with
            | (st, Raise e) => (st, Some snap, Some (Raise e))
            | (st, Ok _) => live_loop fuel' (S k) (Some snap) st
            end
      end
  end.

(** [run_monitor]: the single-shot mode, or the live loop with its
    [except KeyboardInterrupt: pass] and the final summary. *)
Definition run_monitor (once : bool) (fuel : nat) (db : StampedeDB)
    (environ : gmap string string) : MonitorState * Outcome :=
  let st0 := {| st_db := db; st_environ := environ; st_trace := [] |} in
  if once then
    match _refresh 0 st0 with
    | (st, Raise e) => (st, Propagated e)
    | (st, Ok (snap, condor_jobs, ts)) =>
        (emit (FinalSummary snap) (emit (Print snap condor_jobs ts) st), Returned)
    end
  else
    match live_loop fuel 0 None st0 with
    | (st, _, None) => (st, OutOfFuel)
    | (st, last, Some r) =>
        match r with
        | Raise e =>
            if bool_decide (e = KeyboardInterrupt) then
              match last with
              | Some snap => (emit (FinalSummary snap) st, Returned)
              | None => (st, Propagated UnboundLocalError)
              end
            else (st, Propagated e)
        | Ok _ =>
            match last with
            | Some snap => (emit (FinalSummary snap) st, Returned)
            | None => (st, Propagated UnboundLocalError)
            end
        end
    end.

End Monitor.

(** During cycle [k] the store yields [snap] (possibly the degraded
    snapshot) and the queue fetch yields [queue]: neither raises. *)
Definition cycle_answers (world : nat -> Tick) (queue_args : QueueArgs)
    (db : StampedeDB) (k : nat) (snap : WorkflowSnapshot) (queue : list ClassAd) : Prop :=
  snd (snapshot (tick_store (world k)) (tick_now (world k)) db) = Ok snap
  /\ forall environ : gmap string string,
       snd (_poll_condor queue_args (tick_condor (world k)) environ) = Ok queue.



Definition is_refresh (a : Action) : bool :=
  match a with Refresh _ => true | _ => false end.

(** The number of syntheses (calls of [_refresh]) in a trace. *)
Definition syntheses (tr : list Action) : nat :=
  length (filter (fun a => is_refresh a = true) tr).

(** *** The status bar and the final summary *)


(** A run of one glyph in one style: [text.append(glyph * times, style=...)].
    A negative repeat count gives the empty string. *)
Record Span : Type := mkSpan {
  span_glyph : string;
  span_times : nat;
  span_style : string
}.

Definition repeat_glyph (glyph : string) (times : Z) (style : string) : Span :=
  {| span_glyph := glyph; span_times := Z.to_nat times; span_style := style |}.

(** [int(x)] on a real number: truncation towards zero. *)
Definition py_int (x : Q) : Z :=
  if Qle_bool 0 x then Qfloor x else Qceiling x.

Definition bar_width : Z := 40.

(** The [bar_text] that [_make_status_bar] builds. *)
Definition bar_text (snap : WorkflowSnapshot) : list Span :=
  let total := Z.of_nat (total_jobs snap) in
  let pct := progress_pct snap in
  let failed_n := Z.of_nat (failed_count snap) in
  let filled := py_int (inject_Z bar_width * pct / 100) in
  ([ repeat_glyph "[" 1 "dim"; repeat_glyph "█" filled "bold green" ]
   ++ (if 0 <? failed_n then
         let fail_filled :=
           if total =? 0 then 0
           else Z.max 1 (py_int (inject_Z bar_width * inject_Z failed_n / inject_Z total)) in
         [ repeat_glyph "█" (Z.min fail_filled (bar_width - filled)) "bold red";
           repeat_glyph "░" (Z.max 0 (bar_width - filled - fail_filled)) "dim" ]
       else [ repeat_glyph "░" (bar_width - filled) "dim" ])
   ++ [ repeat_glyph "]" 1 "dim" ])%list.

(** The number of glyphs of a text in a given style, and in all. *)
Definition glyphs_in (style : string) (spans : list Span) : nat :=
  sum_list (span_times <$> filter (fun sp => span_style sp = style) spans).

Definition glyphs (spans : list Span) : nat := sum_list (span_times <$> spans).

(** The [counts] text of [_make_status_bar]: the labels it shows. *)
Definition counts_text (snap : WorkflowSnapshot) : list (string * nat) :=
  let unsubmitted :=
    count_if (fun j => bool_decide (disp_state j = "UNSUBMITTED")) (jobs snap) in
  ([ ("Done:", done_count snap); ("Run:", running_count snap);
     ("Queued:", queued_count snap) ]
   ++ (if (0 <? unsubmitted)%nat then [("Wait:", unsubmitted)] else [])
   ++ (if (0 <? failed_count snap)%nat then [("Fail:", failed_count snap)] else []))%list.



Definition is_sleep (a : Action) : bool :=
  match a with Sleep _ => true | _ => false end.

(** [fmt_duration] on the float it is called with: [int(seconds)] cuts a
    fractional number of seconds to whole seconds before the formatting,
    and the sign is tested before the cut. *)
Definition fmt_duration_float (seconds : option Q) : string :=
  match seconds with
  | None => "-"
  | Some x =>
      if negb (Qle_bool 0 x) then "-"
      else
        let sec := py_int x in
        if sec <? 60 then pretty sec +:+ "s"
        else
          let m := sec / 60 in
          let s := sec mod 60 in
          if m <? 60 then pretty m +:+ "m" +:+ pad2 s +:+ "s"
          else
            let h := m / 60 in
            let m' := m mod 60 in
            pretty h +:+ "h" +:+ pad2 m' +:+ "m" +:+ pad2 s +:+ "s"
  end.

(** The decimal digit [d] as a character, and a number below 100 written
    with exactly two of them: what the format [02d] is to print. *)
Definition digit (d : Z) : Ascii.ascii := Ascii.ascii_of_nat (48 + Z.to_nat d).

Definition two_digits (n : Z) : string :=
  String (digit (n / 10)) (String (digit (n mod 10)) EmptyString).

End Display.

(** * Scenarios

    Concrete stores, snapshots and queues on which the properties below
    are exercised. *)

Module Scenario.
Import Db HtcondorPoll Display.

(** The end-to-end scenario of the specification: job A submitted at 0,
    executing at 2, successful at 10; job B submitted at 0 only. *)
Definition end_to_end_db : Database :=
  {| tbl_job := [mkJob 1 "A" "compute"; mkJob 2 "B" "compute"];
     tbl_job_instance :=
       [ mkJobInstance 1 1 1 (Some 0) (Some "local");
         mkJobInstance 2 2 1 None None ];
     tbl_jobstate :=
       [ mkJobState 1 "SUBMIT" 0 1; mkJobState 1 "EXECUTE" 2 2;
         mkJobState 1 "JOB_SUCCESS" 10 3; mkJobState 2 "SUBMIT" 0 1 ];
     tbl_workflowstate :=
       [ mkWorkflowState "WORKFLOW_STARTED" 0 None;
         mkWorkflowState "WORKFLOW_TERMINATED" 10 (Some 0) ] |}.

Definition terminated_job : JobRecord :=
  {| job_id := 2; exec_job_id := "merge_ID0000002"; type_desc := "compute";
     raw_state := Some "JOB_TERMINATED"; exitcode := Some 0; site := Some "local";
     submit_time := Some 3; start_time := Some 4; end_time := Some 9 |}.

Definition succeeded_job : JobRecord :=
  {| job_id := 1; exec_job_id := "split_ID0000001"; type_desc := "compute";
     raw_state := Some "JOB_SUCCESS"; exitcode := Some 0; site := Some "local";
     submit_time := Some 1; start_time := Some 2; end_time := Some 8 |}.

Definition two_job_snapshot : WorkflowSnapshot :=
  {| wf_state := "WORKFLOW_STARTED"; wf_status := None; wf_start := Some 1;
     wf_end := None; jobs := [succeeded_job; terminated_job]; recent_events := [];
     poll_time := 10 |}.

Definition running_job : JobRecord :=
  {| job_id := 3; exec_job_id := "analyze_ID0000003"; type_desc := "compute";
     raw_state := Some "EXECUTE"; exitcode := None; site := Some "condorpool";
     submit_time := Some 2; start_time := Some 5; end_time := None |}.

Definition running_snapshot : WorkflowSnapshot :=
  {| wf_state := "WORKFLOW_STARTED"; wf_status := None; wf_start := Some 1;
     wf_end := None; jobs := [running_job]; recent_events := [];
     poll_time := 7 |}.

(** A job retried once: two EXECUTE rows at 5 and 12, terminal rows at 20
    and 35, and two rows sharing the last timestamp. *)
Definition retry_db : Database :=
  {| tbl_job := [mkJob 2 "B" "compute"; mkJob 1 "A" "compute"];
     tbl_job_instance :=
       [ mkJobInstance 10 1 1 (Some 1) (Some "local");
         mkJobInstance 11 1 2 (Some 0) (Some "local");
         mkJobInstance 20 2 1 None None ];
     tbl_jobstate :=
       [ mkJobState 10 "SUBMIT" 1 1; mkJobState 10 "EXECUTE" 5 2;
         mkJobState 10 "JOB_FAILURE" 20 3;
         mkJobState 11 "SUBMIT" 11 1; mkJobState 11 "EXECUTE" 12 2;
         mkJobState 11 "JOB_SUCCESS" 35 4; mkJobState 11 "JOB_TERMINATED" 35 3;
         mkJobState 20 "SUBMIT" 3 1 ];
     tbl_workflowstate :=
       [ mkWorkflowState "WORKFLOW_STARTED" 0 None;
         mkWorkflowState "WORKFLOW_TERMINATED" 40 (Some 0) ] |}.

Definition healthy_store (d : Database) : Store :=
  {| contents := d; connect_fault := None; query_fault := fun _ => None |}.

(** The store locked while the jobs query runs. *)
Definition locked_store (d : Database) : Store :=
  {| contents := d; connect_fault := None;
     query_fault := fun q => match q with
                             | QJobs => Some OperationalError
                             | _ => None
                             end |}.

Definition fresh_db : StampedeDB := {| db_path := "run0001/wf-0.stampede.db"; _conn := None |}.

Definition connected_db : StampedeDB :=
  {| db_path := "run0001/wf-0.stampede.db";
     _conn := Some "file:run0001/wf-0.stampede.db?mode=ro" |}.

Definition retried_job_record : JobRecord :=
  {| job_id := 1; exec_job_id := "A"; type_desc := "compute";
     raw_state := Some "JOB_SUCCESS"; exitcode := Some 0; site := Some "local";
     submit_time := Some 1; start_time := Some 5; end_time := Some 35 |}.

(** One job with two rows at the same timestamp, stored in either order. *)
Definition tie_low : jobstate_row := mkJobState 7 "EXECUTE" 50 1.
Definition tie_high : jobstate_row := mkJobState 7 "JOB_HELD" 50 2.

Definition tie_db (rows : list jobstate_row) : Database :=
  {| tbl_job := [mkJob 4 "C" "compute"];
     tbl_job_instance := [mkJobInstance 7 4 1 None None];
     tbl_jobstate := rows;
     tbl_workflowstate := [] |}.

Definition tie_record : JobRecord :=
  {| job_id := 4; exec_job_id := "C"; type_desc := "compute";
     raw_state := Some "JOB_HELD"; exitcode := None; site := None;
     submit_time := None; start_time := Some 50; end_time := None |}.

(** No Python bindings installed, and launching [condor_q] fails with the
    given exception. *)
Definition no_bindings_env (launch_error : exn) : CondorEnv :=
  {| import_module := fun _ => Raise ImportError;
     subprocess_run := fun _ => Raise launch_error;
     json_loads := fun _ => Ok JsonOther |}.

Definition default_args : QueueArgs :=
  {| constraint := None; schedd_name := None; collector_host := None;
     token_path := None; cert_path := None; key_path := None;
     password_file := None |}.

(** A live queue holding one job that the snapshot does not know. *)
Definition foreign_queue : list ClassAd :=
  [ {[ "DAGNodeName" := PStr "other_ID0000009"; "JobStatus" := PInt 2 ]} ].

(** A live queue holding the running job of [running_snapshot]. *)
Definition matching_queue : list ClassAd :=
  [ {[ "DAGNodeName" := PStr "analyze_ID0000003"; "JobStatus" := PInt 2 ]} ].

(** [int] on strings, for queues whose status codes are all integers. *)
Definition no_string_status (s : string) : option Z := None.

(** A workflow that is running at the first two polls and terminated from
    the third on; nobody interrupts. *)
Definition started_db : Database :=
  {| tbl_job := tbl_job retry_db; tbl_job_instance := tbl_job_instance retry_db;
     tbl_jobstate := tbl_jobstate retry_db;
     tbl_workflowstate := [mkWorkflowState "WORKFLOW_STARTED" 0 None] |}.

Definition finishing_world (k : nat) : Tick :=
  {| tick_store := healthy_store (if (k <? 2)%nat then started_db else retry_db);
     tick_now := 100 + Z.of_nat k;
     tick_condor := no_bindings_env FileNotFoundError;
     tick_ts := 100 + Z.of_nat k;
     tick_interrupt := false |}.

Definition finishing_snaps (k : nat) : WorkflowSnapshot :=
  healthy_read (if (k <? 2)%nat then started_db else retry_db) (100 + Z.of_nat k).

(** The store file damaged: every query raises a database error. *)
Definition corrupt_store (d : Database) : Store :=
  {| contents := d; connect_fault := None; query_fault := fun _ => Some DatabaseError |}.

(** Bindings that cannot locate a named schedd but answer on the default
    one. *)
Definition local_bindings (ads : list ClassAd) : Bindings :=
  {| set_param := fun _ _ => Ok tt;
     locate_schedd := fun _ _ => Raise RuntimeError;
     new_schedd := Ok tt;
     schedd_query := fun schedd _ _ =>
       match schedd with DefaultSchedd => Ok ads | LocatedSchedd _ _ => Ok [] end |}.

(** Only [htcondor2] is installed, and [condor_q] may not be executed. *)
Definition htcondor2_env (ads : list ClassAd) : CondorEnv :=
  {| import_module := fun m =>
       if bool_decide (m = "htcondor2") then Ok (local_bindings ads)
       else Raise ImportError;
     subprocess_run := fun _ => Raise PermissionError;
     json_loads := fun _ => Ok JsonOther |}.

(** No bindings; [condor_q] exits 0 and prints a list of one job. *)
Definition condor_q_env : CondorEnv :=
  {| import_module := fun _ => Raise ImportError;
     subprocess_run := fun _ => Ok {| returncode := 0; stdout := "[{...}]" |};
     json_loads := fun _ => Ok (JsonList matching_queue) |}.

Definition remote_args : QueueArgs :=
  {| constraint := Some ""; schedd_name := Some "schedd.example.org";
     collector_host := Some "cm.example.org"; token_path := Some "/tokens";
     cert_path := Some "/x509/cert.pem"; key_path := None; password_file := None |}.

Definition failed_job : JobRecord :=
  {| job_id := 4; exec_job_id := "plot_ID0000004"; type_desc := "compute";
     raw_state := Some "JOB_FAILURE"; exitcode := Some 1; site := Some "local";
     submit_time := Some 3; start_time := Some 4; end_time := Some 6 |}.

Definition stage_in_job : JobRecord :=
  {| job_id := 5; exec_job_id := "stage_in_local_0"; type_desc := "stage-in-tx";
     raw_state := Some "POST_SCRIPT_SUCCESS"; exitcode := Some 0; site := Some "local";
     submit_time := Some 1; start_time := Some 1; end_time := Some 2 |}.

(** Five jobs: one done, one failed, one running, one terminated, one
    stage-in job. *)
Definition mixed_snapshot : WorkflowSnapshot :=
  {| wf_state := "WORKFLOW_STARTED"; wf_status := None; wf_start := Some 1;
     wf_end := None;
     jobs := [succeeded_job; failed_job; running_job; terminated_job; stage_in_job];
     recent_events := []; poll_time := 10 |}.


(** The same job twice in the live queue, idle first and running last. *)
Definition duplicate_queue : list ClassAd :=
  [ {[ "DAGNodeName" := PStr "analyze_ID0000003"; "JobStatus" := PInt 1 ]};
    {[ "DAGNodeName" := PStr "analyze_ID0000003"; "JobStatus" := PInt 2 ]} ].



(** A keyboard interrupt arrives while the first query of every poll runs. *)
Definition interrupted_store : Store :=
  {| contents := started_db; connect_fault := None;
     query_fault := fun _ => Some KeyboardInterrupt |}.

Definition early_interrupt_world (k : nat) : Tick :=
  {| tick_store := interrupted_store; tick_now := 100;
     tick_condor := no_bindings_env FileNotFoundError; tick_ts := 100;
     tick_interrupt := false |}.

End Scenario.

(** * Properties *)

Import Db HtcondorPoll Display Scenario.

(** ** The scenarios of the specification, evaluated *)

Example end_to_end_workflow :
  let snap := healthy_read end_to_end_db 11 in
  wf_state snap = "WORKFLOW_TERMINATED" /\ succeeded snap = true
  /\ elapsed 11 snap = Some 10.
Proof. repeat split. Qed.

Example end_to_end_job_A :
  let snap := healthy_read end_to_end_db 11 in
  (fun j => (exec_job_id j, disp_state j, duration 11 j)) <$> jobs snap !! 0%nat
  = Some ("A", "SUCCESS", Some 8).
Proof. reflexivity. Qed.

Example end_to_end_job_B :
  let snap := healthy_read end_to_end_db 11 in
  (fun j => (disp_state j, start_time j, duration 11 j)) <$> jobs snap !! 1%nat
  = Some ("QUEUED", None, None)
  /\ queued_count snap = 1%nat /\ done_count snap = 1%nat /\ total_jobs snap = 2%nat.
Proof. repeat split. Qed.

Example fmt_duration_magnitudes :
  fmt_duration (Some 59) = "59s" /\ fmt_duration (Some 61) = "1m01s"
  /\ fmt_duration (Some 3725) = "1h02m05s" /\ fmt_duration None = "-".
Proof. repeat split. Qed.

Example format_job_status_codes :
  format_job_status no_string_status (PInt 2) = "Running"
  /\ format_job_status no_string_status (PInt 9) = "9"
  /\ format_job_status no_string_status PNone = "None".
Proof. repeat split. Qed.

(** ** Display states *)

Lemma state_map_keys : (_STATE_MAP : gmap string string) =
  list_to_map (zip mapped_raw_states
    [ "SUCCESS"; "SUCCESS"; "FAILED"; "FAILED"; "RUNNING"; "QUEUED"; "PRE"; "PRE";
      "POST"; "POST"; "DONE"; "HELD" ]).
Proof. reflexivity. Qed.

Lemma state_map_unmapped (raw : string) :
  raw ∉ mapped_raw_states -> _STATE_MAP !! raw = None.
Proof.
  intros Hnot. rewrite state_map_keys.
  apply not_elem_of_list_to_map_1.
  rewrite fst_zip; [exact Hnot | simpl; lia].
Qed.

(** C4. [display_state] is a total function into display states (its
    result type has no null): the absent raw state maps to UNSUBMITTED,
    every raw state of the mapping table maps to the display state listed
    for it, and every raw state outside the table is returned unchanged. *)
Theorem display_state_table :
  display_state None = "UNSUBMITTED"
  /\ display_state (Some "JOB_SUCCESS") = "SUCCESS"
  /\ display_state (Some "POST_SCRIPT_SUCCESS") = "SUCCESS"
  /\ display_state (Some "JOB_FAILURE") = "FAILED"
  /\ display_state (Some "POST_SCRIPT_FAILURE") = "FAILED"
  /\ display_state (Some "EXECUTE") = "RUNNING"
  /\ display_state (Some "SUBMIT") = "QUEUED"
  /\ display_state (Some "PRE_SCRIPT_STARTED") = "PRE"
  /\ display_state (Some "PRE_SCRIPT_SUCCESS") = "PRE"
  /\ display_state (Some "POST_SCRIPT_STARTED") = "POST"
  /\ display_state (Some "POST_SCRIPT_TERMINATED") = "POST"
  /\ display_state (Some "JOB_TERMINATED") = "DONE"
  /\ display_state (Some "JOB_HELD") = "HELD"
  /\ (forall raw : string,
        raw ∉ mapped_raw_states -> display_state (Some raw) = raw)
  /\ (forall raw : option string, exists shown : string,
        display_state raw = shown
        /\ (raw = None -> shown = "UNSUBMITTED")
        /\ (forall r, raw = Some r -> shown = r \/ r ∈ mapped_raw_states)).
Proof.
  repeat (split; [vm_compute; reflexivity |]).
  split.
  - intros raw Hnot. unfold display_state, dict_get.
    now rewrite (state_map_unmapped raw Hnot).
  - intros raw. exists (display_state raw). split; [reflexivity |]. split.
    + intros ->. reflexivity.
    + intros r ->. destruct (decide (r ∈ mapped_raw_states)) as [Hin | Hnot].
      * now right.
      * left. unfold display_state, dict_get.
        now rewrite (state_map_unmapped r Hnot).
Qed.

Lemma display_state_table_witness :
  ("HELD_FOR_REVIEW" ∉ mapped_raw_states)
  /\ display_state (Some "HELD_FOR_REVIEW") = "HELD_FOR_REVIEW".
Proof.
  assert (H : "HELD_FOR_REVIEW" ∉ mapped_raw_states).
  { apply (bool_decide_unpack _). vm_compute. exact I. }
  split; [exact H |].
  apply display_state_table. exact H.
Defined.

(** ** Counts and progress *)

Lemma count_if_length_filter (p : JobRecord -> bool) (js : list JobRecord) :
  count_if p js = length (filter (fun j => p j = true) js).
Proof.
  induction js as [| j js IH]; [reflexivity |].
  cbn [count_if foldr]. fold (count_if p js). rewrite filter_cons.
  destruct (p j) eqn:Hp.
  - rewrite decide_True by reflexivity. cbn. now rewrite IH.
  - rewrite decide_False by discriminate. exact IH.
Qed.

Lemma count_if_le_length (p : JobRecord -> bool) (js : list JobRecord) :
  (count_if p js <= length js)%nat.
Proof. rewrite count_if_length_filter. apply length_filter. Qed.

Lemma count_if_app (p : JobRecord -> bool) (l1 l2 : list JobRecord) :
  count_if p (l1 ++ l2) = (count_if p l1 + count_if p l2)%nat.
Proof. now rewrite !count_if_length_filter, filter_app, length_app. Qed.

Lemma done_count_le_total (s : WorkflowSnapshot) : (done_count s <= total_jobs s)%nat.
Proof. apply count_if_le_length. Qed.

Lemma Q_of_nat_pos (n : nat) : (0 < n)%nat -> (0 < inject_Z (Z.of_nat n))%Q.
Proof. intros H. rewrite <- (Zlt_Qlt 0). lia. Qed.

Lemma Q_of_nat_nonneg (n : nat) : (0 <= inject_Z (Z.of_nat n))%Q.
Proof. rewrite <- (Zle_Qle 0). lia. Qed.

Lemma progress_pct_unfold (s : WorkflowSnapshot) :
  (0 < total_jobs s)%nat ->
  progress_pct s =
  (100 * inject_Z (Z.of_nat (done_count s)) / inject_Z (Z.of_nat (total_jobs s)))%Q.
Proof.
  intros Hpos. unfold progress_pct.
  destruct (Nat.eqb_spec (total_jobs s) 0); [lia | reflexivity].
Qed.

(** [truediv] faults at a zero divisor and nowhere else. *)
Lemma truediv_raises (a b : Q) :
  truediv a b = Raise ZeroDivisionError <-> (b == 0)%Q.
Proof.
  unfold truediv. destruct (Qeq_bool b 0) eqn:Hb.
  - apply Qeq_bool_iff in Hb. tauto.
  - split; [discriminate |]. intros H. apply Qeq_bool_iff in H. congruence.
Qed.

Lemma progress_pct_call_value (s : WorkflowSnapshot) :
  progress_pct_call s = Ok (progress_pct s).
Proof.
  unfold progress_pct_call, progress_pct.
  destruct (Nat.eqb_spec (total_jobs s) 0) as [| Hne]; [reflexivity |].
  unfold truediv.
  destruct (Qeq_bool (inject_Z (Z.of_nat (total_jobs s))) 0) eqn:Hz; [| reflexivity].
  apply Qeq_bool_iff in Hz. unfold Qeq in Hz. cbn in Hz. lia.
Qed.

Lemma done_count_filter (s : WorkflowSnapshot) :
  done_count s = length (filter (fun j => disp_state j = "SUCCESS") (jobs s)).
Proof.
  unfold done_count. induction (jobs s) as [| j js IH]; [reflexivity |].
  cbn [count_if foldr]. rewrite filter_cons.
  destruct (decide (disp_state j = "SUCCESS")) as [Hj | Hj].
  - rewrite bool_decide_eq_true_2 by exact Hj. cbn [length]. f_equal. exact IH.
  - rewrite bool_decide_eq_false_2 by exact Hj. exact IH.
Qed.

(** C8. A call of [progress_pct] never raises [ZeroDivisionError]: it
    returns a number [p].  With no job in the snapshot [p] is exactly
    zero, and the division is not reached, which at the zero total would
    raise; with jobs, [p] is 100 times the number of jobs displayed as
    SUCCESS over the number of jobs.  In both cases [0 <= p <= 100]. *)
Theorem progress_pct_range (s : WorkflowSnapshot) :
  let total := length (jobs s) in
  let done := length (filter (fun j => disp_state j = "SUCCESS") (jobs s)) in
  exists p : Q,
    progress_pct_call s = Ok p
    /\ p = progress_pct s
    /\ (total = 0%nat ->
        p = 0%Q
        /\ truediv (100 * inject_Z (Z.of_nat done)) (inject_Z (Z.of_nat total))
           = Raise ZeroDivisionError)
    /\ ((0 < total)%nat ->
        (p == 100 * inject_Z (Z.of_nat done) / inject_Z (Z.of_nat total))%Q)
    /\ (0 <= p)%Q
    /\ (p <= 100)%Q.
Proof.
  intros total done.
  exists (progress_pct s). split; [apply progress_pct_call_value |].
  split; [reflexivity |].
  assert (Hdone : done_count s = done) by apply done_count_filter.
  pose proof (done_count_le_total s) as Hle. rewrite Hdone in Hle.
  fold total in Hle. unfold total_jobs in Hle. fold total in Hle.
  unfold progress_pct. rewrite Hdone. unfold total_jobs. fold total.
  destruct (Nat.eqb_spec total 0) as [Hz | Hnz].
  - split; [| split; [lia | split; discriminate]].
    intros _. split; [reflexivity |]. rewrite Hz. reflexivity.
  - pose proof (Q_of_nat_pos total ltac:(lia)) as HtQ.
    split; [lia |]. split; [reflexivity |]. split.
    + apply Qle_shift_div_l; [exact HtQ |].
      rewrite Qmult_0_l. apply Qmult_le_0_compat; [discriminate |].
      apply Q_of_nat_nonneg.
    + apply Qle_shift_div_r; [exact HtQ |].
      apply Qmult_le_l; [reflexivity |].
      rewrite <- Zle_Qle. lia.
Qed.

Lemma progress_pct_range_witness :
  (exists p : Q, progress_pct_call two_job_snapshot = Ok p /\ (p == 50)%Q)
  /\ progress_pct_call (degraded_snapshot 0) = Ok 0%Q.
Proof.
  split.
  - destruct (progress_pct_range two_job_snapshot) as (p & Hcall & _ & _ & Hjobs & _).
    exists p. split; [exact Hcall |].
    rewrite (Hjobs ltac:(cbn; lia)). reflexivity.
  - destruct (progress_pct_range (degraded_snapshot 0)) as (p & Hcall & _ & Hnone & _).
    rewrite Hcall. f_equal. apply Hnone. reflexivity.
Defined.

(** C10. [done_count] counts exactly the jobs whose display state is
    SUCCESS.  A job whose latest raw state is JOB_TERMINATED is shown as
    DONE and is not counted: the count, and with it the numerator of
    [progress_pct], is what it would be without that job. *)
Theorem done_count_skips_terminated (s : WorkflowSnapshot)
    (before after : list JobRecord) (j : JobRecord) :
  jobs s = (before ++ j :: after)%list ->
  raw_state j = Some "JOB_TERMINATED" ->
  disp_state j = "DONE"
  /\ done_count s = length (filter (fun x => disp_state x = "SUCCESS") (jobs s))
  /\ done_count s =
     length (filter (fun x => disp_state x = "SUCCESS") (before ++ after)%list)
  /\ (progress_pct s * inject_Z (Z.of_nat (total_jobs s)) ==
      100 * inject_Z (Z.of_nat
              (length (filter (fun x => disp_state x = "SUCCESS") (before ++ after)%list))))%Q.
Proof.
  intros Hjobs Hraw.
  assert (Hdisp : disp_state j = "DONE").
  { unfold disp_state. rewrite Hraw. reflexivity. }
  assert (Hfilter : forall l : list JobRecord,
            count_if (fun x => bool_decide (disp_state x = "SUCCESS")) l
            = length (filter (fun x => disp_state x = "SUCCESS") l)).
  { induction l as [| x l IH]; [reflexivity |].
    cbn [count_if foldr]. rewrite filter_cons.
    fold (count_if (fun x => bool_decide (disp_state x = "SUCCESS")) l).
    destruct (decide (disp_state x = "SUCCESS")) as [Hx | Hx].
    - rewrite bool_decide_eq_true_2 by exact Hx. cbn. now rewrite IH.
    - rewrite bool_decide_eq_false_2 by exact Hx. exact IH. }
  assert (Hskip : done_count s =
            length (filter (fun x => disp_state x = "SUCCESS") (before ++ after)%list)).
  { unfold done_count. rewrite Hfilter, Hjobs, !filter_app, filter_cons.
    rewrite decide_False; [reflexivity |]. rewrite Hdisp. discriminate. }
  split; [exact Hdisp |]. split; [apply Hfilter |]. split; [exact Hskip |].
  rewrite <- Hskip.
  assert (Hpos : (0 < total_jobs s)%nat).
  { unfold total_jobs. rewrite Hjobs, length_app. cbn. lia. }
  rewrite (progress_pct_unfold s Hpos).
  field. intros Hz.
  pose proof (Q_of_nat_pos _ Hpos) as HtQ. rewrite Hz in HtQ.
  now apply Qlt_irrefl in HtQ.
Qed.

Lemma done_count_skips_terminated_witness :
  disp_state terminated_job = "DONE"
  /\ done_count two_job_snapshot = 1%nat
  /\ total_jobs two_job_snapshot = 2%nat.
Proof.
  destruct (done_count_skips_terminated two_job_snapshot [succeeded_job] []
              terminated_job eq_refl eq_refl) as (Hd & _ & Hc & _).
  split; [exact Hd |]. split; [rewrite Hc; vm_compute; reflexivity | reflexivity].
Defined.

(** ** Derived times *)




(** ** The event store queries *)

Section OrderBy.
Context {A : Type} (R : relation A) `{!RelDecision R} `{!Transitive R} `{!Total R}.

Lemma order_by_elem (x : A) (rows : list A) : x ∈ order_by R rows <-> x ∈ rows.
Proof. unfold order_by. now rewrite merge_sort_Permutation. Qed.

Lemma order_by_head_first (x : A) (rows : list A) :
  head (order_by R rows) = Some x -> x ∈ rows /\ forall y, y ∈ rows -> R x y.
Proof.
  intros Hhead.
  pose proof (StronglySorted_merge_sort R rows) as Hsorted.
  fold (order_by R rows) in Hsorted.
  destruct (order_by R rows) as [| z rest] eqn:Hsort; [discriminate |].
  injection Hhead as ->.
  assert (Hx : x ∈ rows).
  { apply order_by_elem. rewrite Hsort. apply list_elem_of_here. }
  split; [exact Hx |]. intros y Hy.
  apply order_by_elem in Hy. rewrite Hsort in Hy.
  apply elem_of_cons in Hy as [-> | Hy].
  - destruct (total R x x); assumption.
  - apply StronglySorted_inv in Hsorted as [_ Hall].
    rewrite Forall_forall in Hall. now apply Hall.
Qed.

Lemma order_by_head_none (rows : list A) :
  head (order_by R rows) = None -> rows = [].
Proof.
  intros Hhead. destruct (order_by R rows) as [| z rest] eqn:Hsort; [| discriminate].
  apply Permutation_nil_r. rewrite <- Hsort. unfold order_by.
  symmetry. apply merge_sort_Permutation.
Qed.

End OrderBy.

#[local] Instance latest_first_trans : Transitive latest_first.
Proof. intros a b c. unfold latest_first. lia. Qed.

#[local] Instance latest_first_total : Total latest_first.
Proof. intros a b. unfold latest_first. lia. Qed.

Lemma sql_min_from (m0 : Z) (ts : list Z) :
  exists m,
    foldl (fun acc t => match acc with None => Some t | Some m => Some (Z.min m t) end)
          (Some m0) ts = Some m
    /\ (m = m0 \/ m ∈ ts) /\ m <= m0 /\ forall t, t ∈ ts -> m <= t.
Proof.
  revert m0. induction ts as [| t ts IH]; intros m0.
  - exists m0. cbn. repeat split; [now left | lia |]. intros t Ht. inversion Ht.
  - cbn [foldl]. destruct (IH (Z.min m0 t)) as (m & Hfold & Hin & Hle & Hall).
    exists m. split; [exact Hfold |]. split; [| split].
    + destruct Hin as [-> | Hin].
      * destruct (Z.min_spec m0 t) as [[_ ->] | [_ ->]]; [now left |].
        right. apply list_elem_of_here.
      * right. now apply list_elem_of_further.
    + lia.
    + intros t' Ht'. apply elem_of_cons in Ht' as [-> | Ht']; [lia | now apply Hall].
Qed.

Lemma sql_min_spec (ts : list Z) :
  match sql_min ts with
  | None => ts = []
  | Some m => m ∈ ts /\ forall t, t ∈ ts -> m <= t
  end.
Proof.
  destruct ts as [| t0 ts]; [reflexivity |].
  unfold sql_min. cbn [foldl].
  destruct (sql_min_from t0 ts) as (m & -> & Hin & Hle & Hall).
  split.
  - destruct Hin as [-> | Hin]; [apply list_elem_of_here | now apply list_elem_of_further].
  - intros t Ht. apply elem_of_cons in Ht as [-> | Ht]; [exact Hle | now apply Hall].
Qed.

Lemma sql_max_from (m0 : Z) (ts : list Z) :
  exists m,
    foldl (fun acc t => match acc with None => Some t | Some m => Some (Z.max m t) end)
          (Some m0) ts = Some m
    /\ (m = m0 \/ m ∈ ts) /\ m0 <= m /\ forall t, t ∈ ts -> t <= m.
Proof.
  revert m0. induction ts as [| t ts IH]; intros m0.
  - exists m0. cbn. repeat split; [now left | lia |]. intros t Ht. inversion Ht.
  - cbn [foldl]. destruct (IH (Z.max m0 t)) as (m & Hfold & Hin & Hle & Hall).
    exists m. split; [exact Hfold |]. split; [| split].
    + destruct Hin as [-> | Hin].
      * destruct (Z.max_spec m0 t) as [[_ ->] | [_ ->]]; [| now left].
        right. apply list_elem_of_here.
      * right. now apply list_elem_of_further.
    + lia.
    + intros t' Ht'. apply elem_of_cons in Ht' as [-> | Ht']; [lia | now apply Hall].
Qed.

Lemma sql_max_spec (ts : list Z) :
  match sql_max ts with
  | None => ts = []
  | Some m => m ∈ ts /\ forall t, t ∈ ts -> t <= m
  end.
Proof.
  destruct ts as [| t0 ts]; [reflexivity |].
  unfold sql_max. cbn [foldl].
  destruct (sql_max_from t0 ts) as (m & -> & Hin & Hle & Hall).
  split.
  - destruct Hin as [-> | Hin]; [apply list_elem_of_here | now apply list_elem_of_further].
  - intros t Ht. apply elem_of_cons in Ht as [-> | Ht]; [exact Hle | now apply Hall].
Qed.

(** The join of the subqueries holds exactly the job's transition rows. *)
Lemma elem_of_job_transitions (d : Database) (jid : Z) (js : jobstate_row) :
  js ∈ job_transitions d jid <-> attached_to d jid js.
Proof.
  unfold job_transitions, attached_to. rewrite list_elem_of_bind. split.
  - intros (js' & Hin & Hjs). apply list_elem_of_bind in Hin as (ji & Hin & Hji).
    case_bool_decide as Hmatch; [| inversion Hin].
    apply list_elem_of_singleton in Hin as ->. destruct Hmatch as [H1 H2].
    split; [exact Hjs |]. now exists ji.
  - intros (Hjs & ji & Hji & H1 & H2). exists js. split; [| exact Hjs].
    apply list_elem_of_bind. exists ji. split; [| exact Hji].
    rewrite bool_decide_eq_true_2 by (now split). apply list_elem_of_here.
Qed.

Lemma elem_of_transitions_in (states : list string) (d : Database) (jid : Z)
    (js : jobstate_row) :
  js ∈ transitions_in states d jid <-> transition_of d jid states js.
Proof.
  unfold transitions_in, transition_of.
  rewrite list_elem_of_filter, elem_of_job_transitions. tauto.
Qed.

Lemma sql_min_earliest (states : list string) (d : Database) (jid : Z) :
  earliest_of d jid states (sql_min (js_timestamp <$> transitions_in states d jid)).
Proof.
  pose proof (sql_min_spec (js_timestamp <$> transitions_in states d jid)) as Hspec.
  unfold earliest_of. destruct (sql_min _) as [m |].
  - destruct Hspec as [Hin Hall]. split.
    + apply list_elem_of_fmap in Hin as (js & -> & Hjs).
      exists js. split; [now apply elem_of_transitions_in | reflexivity].
    + intros js Hjs. apply Hall. apply list_elem_of_fmap.
      exists js. split; [reflexivity | now apply elem_of_transitions_in].
  - intros js Hjs. apply elem_of_transitions_in in Hjs.
    apply fmap_nil_inv in Hspec. rewrite Hspec in Hjs. inversion Hjs.
Qed.

Lemma sql_max_latest (states : list string) (d : Database) (jid : Z) :
  latest_of d jid states (sql_max (js_timestamp <$> transitions_in states d jid)).
Proof.
  pose proof (sql_max_spec (js_timestamp <$> transitions_in states d jid)) as Hspec.
  unfold latest_of. destruct (sql_max _) as [m |].
  - destruct Hspec as [Hin Hall]. split.
    + apply list_elem_of_fmap in Hin as (js & -> & Hjs).
      exists js. split; [now apply elem_of_transitions_in | reflexivity].
    + intros js Hjs. apply Hall. apply list_elem_of_fmap.
      exists js. split; [reflexivity | now apply elem_of_transitions_in].
  - intros js Hjs. apply elem_of_transitions_in in Hjs.
    apply fmap_nil_inv in Hspec. rewrite Hspec in Hjs. inversion Hjs.
Qed.

Lemma get_jobs_rows (w : Store) (self self' : StampedeDB) (rs : list JobRecord) :
  get_jobs w self = (self', Ok rs) -> rs = select_jobs (contents w).
Proof.
  unfold get_jobs, m_bind, _conn_or_raise, m_bind, connect, execute.
  destruct (_conn self); [| destruct (connect_fault w)];
    destruct (query_fault w QJobs); intros [= _ H]; now subst.
Qed.

#[local] Instance job_asc_trans : Transitive job_asc.
Proof. intros a b c. unfold job_asc. lia. Qed.

#[local] Instance job_asc_total : Total job_asc.
Proof. intros a b. unfold job_asc. lia. Qed.

Lemma elem_of_select_jobs (d : Database) (r : JobRecord) :
  r ∈ select_jobs d <-> exists j, j ∈ tbl_job d /\ r = job_record d j.
Proof.
  unfold select_jobs. rewrite list_elem_of_fmap. split.
  - intros (j & -> & Hj). exists j. split; [| reflexivity].
    exact (proj1 (order_by_elem job_asc j (tbl_job d)) Hj).
  - intros (j & Hj & ->). exists j. split; [reflexivity |].
    exact (proj2 (order_by_elem job_asc j (tbl_job d)) Hj).
Qed.

(** C2. For every job row that [get_jobs] returns, [submit_time] is the
    least timestamp among the job's SUBMIT rows, [start_time] the least
    among its EXECUTE rows and [end_time] the greatest among its terminal
    rows (JOB_TERMINATED, JOB_SUCCESS, JOB_FAILURE), each absent when the
    job has no such row.  In particular EXECUTE rows at times 5 and 12
    give start time 5 and terminal rows at times 20 and 35 give end time
    35. *)
Theorem get_jobs_first_start_last_end
    (w : Store) (self self' : StampedeDB) (rs : list JobRecord) (r : JobRecord) :
  get_jobs w self = (self', Ok rs) ->
  r ∈ rs ->
  let d := contents w in
  earliest_of d (job_id r) ["SUBMIT"] (submit_time r)
  /\ earliest_of d (job_id r) ["EXECUTE"] (start_time r)
  /\ latest_of d (job_id r) ["JOB_TERMINATED"; "JOB_SUCCESS"; "JOB_FAILURE"] (end_time r)
  /\ (js_timestamp <$> transitions_in ["EXECUTE"] d (job_id r) ≡ₚ [5; 12] ->
      start_time r = Some 5)
  /\ (js_timestamp <$> transitions_in terminal_states d (job_id r) ≡ₚ [20; 35] ->
      end_time r = Some 35).
Proof.
  intros Hget Hr d. apply get_jobs_rows in Hget. subst rs.
  apply elem_of_select_jobs in Hr as (j & _ & ->). cbn [job_record job_id submit_time start_time end_time].
  split; [apply sql_min_earliest |]. split; [apply sql_min_earliest |].
  split; [apply sql_max_latest |]. split.
  - intros Hperm.
    pose proof (sql_min_spec (js_timestamp <$> transitions_in ["EXECUTE"] d (j_job_id j)))
      as Hspec.
    destruct (sql_min _) as [m |].
    + destruct Hspec as [Hin Hall]. rewrite Hperm in Hin.
      assert (H5 : m <= 5).
      { apply Hall. rewrite Hperm. apply list_elem_of_here. }
      f_equal. apply elem_of_cons in Hin as [-> | Hin]; [reflexivity |].
      apply list_elem_of_singleton in Hin. lia.
    + rewrite Hspec in Hperm. now apply Permutation_nil_cons in Hperm.
  - intros Hperm.
    pose proof (sql_max_spec (js_timestamp <$> transitions_in terminal_states d (j_job_id j)))
      as Hspec.
    destruct (sql_max _) as [m |].
    + destruct Hspec as [Hin Hall]. rewrite Hperm in Hin.
      assert (H35 : 35 <= m).
      { apply Hall. rewrite Hperm. apply list_elem_of_further, list_elem_of_here. }
      f_equal. apply elem_of_cons in Hin as [-> | Hin]; [lia |].
      now apply list_elem_of_singleton in Hin.
    + rewrite Hspec in Hperm. now apply Permutation_nil_cons in Hperm.
Qed.

Lemma get_jobs_first_start_last_end_witness :
  retried_job_record ∈ select_jobs retry_db
  /\ start_time retried_job_record = Some 5
  /\ end_time retried_job_record = Some 35
  /\ earliest_of retry_db 1 ["EXECUTE"] (Some 5)
  /\ latest_of retry_db 1 ["JOB_TERMINATED"; "JOB_SUCCESS"; "JOB_FAILURE"] (Some 35).
Proof.
  assert (Hin : retried_job_record ∈ select_jobs retry_db).
  { vm_compute. apply list_elem_of_here. }
  destruct (get_jobs_first_start_last_end (healthy_store retry_db) connected_db
              connected_db (select_jobs retry_db) retried_job_record eq_refl Hin)
    as (_ & Hstart & Hend & _).
  split; [exact Hin |]. split; [reflexivity |]. split; [reflexivity |].
  split; [exact Hstart | exact Hend].
Defined.

Lemma latest_first_recency (a b : jobstate_row) : latest_first a b <-> recency_le b a.
Proof. unfold latest_first, recency_le. tauto. Qed.

Lemma recency_le_antisym (a b : jobstate_row) :
  recency_le a b -> recency_le b a -> recency a = recency b.
Proof. unfold recency_le, recency. intros H1 H2. f_equal; lia. Qed.

Lemma attached_same_rows (d d' : Database) (jid : Z) (js : jobstate_row) :
  same_rows d d' -> attached_to d jid js -> attached_to d' jid js.
Proof.
  intros [Hjs Hji] (Hin & ji & Hi & Hids). split.
  - now rewrite <- Hjs.
  - exists ji. split; [now rewrite <- Hji | exact Hids].
Qed.

(** The row chosen by the [current_state] subquery is a most recent one. *)
Lemma latest_transition_spec (d : Database) (jid : Z) :
  match latest_transition d jid with
  | Some sel => attached_to d jid sel /\ forall js, attached_to d jid js -> recency_le js sel
  | None => forall js, ~ attached_to d jid js
  end.
Proof.
  unfold latest_transition.
  destruct (head (order_by latest_first (job_transitions d jid))) as [sel |] eqn:Hhead.
  - apply (order_by_head_first latest_first) in Hhead as [Hin Hall]. split.
    + now apply elem_of_job_transitions.
    + intros js Hjs. apply latest_first_recency, Hall.
      now apply elem_of_job_transitions.
  - apply (order_by_head_none latest_first) in Hhead.
    intros js Hjs. apply elem_of_job_transitions in Hjs.
    rewrite Hhead in Hjs. inversion Hjs.
Qed.

(** C3. For every job row that [get_jobs] returns, the raw state is that
    of a transition row of the job that no other row of the job exceeds in
    (timestamp, sequence number), timestamps compared first; it is absent
    exactly when the job has no row.  Of two rows with the same timestamp
    the one with the lower sequence number is never chosen, so when they
    are the job's only rows the higher one is; and storing the same rows in
    another order changes neither the timestamp nor the sequence number of
    the chosen row. *)
Theorem get_jobs_latest_by_time_then_sequence
    (w : Store) (self self' : StampedeDB) (rs : list JobRecord) (r : JobRecord) :
  get_jobs w self = (self', Ok rs) ->
  r ∈ rs ->
  let d := contents w in
  let jid := job_id r in
  raw_state r = js_state <$> latest_transition d jid
  /\ match latest_transition d jid with
     | Some sel =>
         attached_to d jid sel
         /\ forall js, attached_to d jid js -> recency_le js sel
     | None => forall js, ~ attached_to d jid js
     end
  /\ (forall a b : jobstate_row,
        attached_to d jid a -> attached_to d jid b ->
        js_timestamp a = js_timestamp b ->
        js_jobstate_submit_seq a < js_jobstate_submit_seq b ->
        latest_transition d jid <> Some a)
  /\ (forall a b : jobstate_row,
        job_transitions d jid ≡ₚ [a; b] ->
        js_timestamp a = js_timestamp b ->
        js_jobstate_submit_seq a < js_jobstate_submit_seq b ->
        raw_state r = Some (js_state b))
  /\ (forall d' : Database,
        same_rows d d' ->
        recency <$> latest_transition d' jid = recency <$> latest_transition d jid).
Proof.
  intros Hget Hr d jid. apply get_jobs_rows in Hget. subst rs.
  apply elem_of_select_jobs in Hr as (j & _ & ->).
  cbn [job_record job_id raw_state] in *. subst jid d.
  generalize (contents w). intros d.
  set (jid := j_job_id j).
  pose proof (latest_transition_spec d jid) as Hspec.
  assert (Htie : forall a b : jobstate_row,
            attached_to d jid a -> attached_to d jid b ->
            js_timestamp a = js_timestamp b ->
            js_jobstate_submit_seq a < js_jobstate_submit_seq b ->
            latest_transition d jid <> Some a).
  { intros a b Ha Hb Hts Hseq Hsel. rewrite Hsel in Hspec.
    destruct Hspec as [_ Hmax]. specialize (Hmax b Hb).
    unfold recency_le in Hmax. lia. }
  split; [reflexivity |]. split; [exact Hspec |]. split; [exact Htie |]. split.
  - intros a b Hperm Hts Hseq.
    assert (Ha : attached_to d jid a).
    { apply elem_of_job_transitions. rewrite Hperm. apply list_elem_of_here. }
    assert (Hb : attached_to d jid b).
    { apply elem_of_job_transitions. rewrite Hperm.
      apply list_elem_of_further, list_elem_of_here. }
    specialize (Htie a b Ha Hb Hts Hseq).
    destruct (latest_transition d jid) as [sel |].
    + destruct Hspec as [Hsel _]. apply elem_of_job_transitions in Hsel.
      rewrite Hperm in Hsel. apply elem_of_cons in Hsel as [-> | Hsel].
      * now contradiction Htie.
      * apply list_elem_of_singleton in Hsel as ->. reflexivity.
    + now contradiction (Hspec b).
  - intros d' Hsame.
    assert (Hsame' : same_rows d' d).
    { destruct Hsame as [H1 H2]. split; now symmetry. }
    pose proof (latest_transition_spec d' jid) as Hspec'.
    destruct (latest_transition d jid) as [sel |],
             (latest_transition d' jid) as [sel' |]; cbn.
    + destruct Hspec as [Hsel Hmax], Hspec' as [Hsel' Hmax'].
      f_equal. apply recency_le_antisym.
      * apply Hmax. now apply (attached_same_rows d' d).
      * apply Hmax'. now apply (attached_same_rows d d').
    + destruct Hspec as [Hsel _].
      now contradiction (Hspec' sel (attached_same_rows d d' jid sel Hsame Hsel)).
    + destruct Hspec' as [Hsel' _].
      now contradiction (Hspec sel' (attached_same_rows d' d jid sel' Hsame' Hsel')).
    + reflexivity.
Qed.

Lemma get_jobs_latest_by_time_then_sequence_witness :
  select_jobs (tie_db [tie_low; tie_high]) = [tie_record]
  /\ select_jobs (tie_db [tie_high; tie_low]) = [tie_record]
  /\ raw_state tie_record = Some (js_state tie_high)
  /\ latest_transition (tie_db [tie_high; tie_low]) 4 <> Some tie_low.
Proof.
  assert (Hin : tie_record ∈ select_jobs (tie_db [tie_high; tie_low])).
  { vm_compute. apply list_elem_of_here. }
  destruct (get_jobs_latest_by_time_then_sequence
              (healthy_store (tie_db [tie_high; tie_low])) connected_db connected_db
              (select_jobs (tie_db [tie_high; tie_low])) tie_record eq_refl Hin)
    as (_ & _ & Htie & Htwo & _).
  split; [reflexivity |]. split; [reflexivity |]. split.
  - apply (Htwo tie_low tie_high); [| reflexivity | reflexivity].
    vm_compute. apply perm_swap.
  - apply (Htie tie_low tie_high); [| | reflexivity | reflexivity];
      apply elem_of_job_transitions; vm_compute; repeat constructor.
Defined.

(** ** Degraded reads *)

Ltac unfold_snapshot :=
  unfold snapshot, get_workflow_state, get_workflow_times, get_jobs,
    get_recent_events, m_bind, _conn_or_raise, m_bind, connect, execute, m_ret.

(** A poll of a store that answers every query returns the healthy read,
    whatever the state of the object. *)
Lemma snapshot_healthy (w : Store) (now : Z) (self : StampedeDB) :
  healthy w -> snd (snapshot w now self) = Ok (healthy_read (contents w) now).
Proof.
  intros [Hconn Hq]. unfold_snapshot.
  rewrite Hconn, !Hq.
  destruct (_conn self) as [c |] eqn:Hc; cbn [_conn fst snd];
    repeat (rewrite ?Hc; cbn [_conn fst snd]); reflexivity.
Qed.

(** A poll on an open connection leaves the object as it was. *)
Lemma snapshot_keeps_connection (w : Store) (now : Z) (self : StampedeDB) :
  is_Some (_conn self) -> fst (snapshot w now self) = self.
Proof.
  intros [c Hc]. unfold_snapshot. rewrite Hc.
  destruct (query_fault w QWorkflowState); [reflexivity |]. rewrite Hc.
  destruct (query_fault w QWorkflowTimes); [reflexivity |]. rewrite Hc.
  destruct (query_fault w QJobs); [reflexivity |]. rewrite Hc.
  destruct (query_fault w QRecentEvents); reflexivity.
Qed.

(** C1. When the first operation of a poll that fails raises an
    operational error, [snapshot] raises nothing and returns the degraded
    snapshot: state UNKNOWN, no time bounds, no jobs, no events.  The next
    poll of a healthy store then returns exactly the healthy read of that
    store, the same as from any other object: the failed cycle leaves
    nothing behind. *)
Theorem snapshot_absorbs_operational_error (self : StampedeDB) (w : Store) (now : Z) :
  first_fault self w = Some OperationalError ->
  exists self' : StampedeDB,
    snapshot w now self = (self', Ok (degraded_snapshot now))
    /\ wf_state (degraded_snapshot now) = "UNKNOWN"
    /\ wf_start (degraded_snapshot now) = None
    /\ wf_end (degraded_snapshot now) = None
    /\ jobs (degraded_snapshot now) = []
    /\ recent_events (degraded_snapshot now) = []
    /\ forall (w' : Store) (now' : Z) (other : StampedeDB),
         healthy w' ->
         snd (snapshot w' now' self') = Ok (healthy_read (contents w') now')
         /\ snd (snapshot w' now' self') = snd (snapshot w' now' other).
Proof.
  intros Hfault.
  assert (Hlater : forall self' : StampedeDB,
            forall (w' : Store) (now' : Z) (other : StampedeDB),
              healthy w' ->
              snd (snapshot w' now' self') = Ok (healthy_read (contents w') now')
              /\ snd (snapshot w' now' self') = snd (snapshot w' now' other)).
  { intros self' w' now' other Hh. split; [now apply snapshot_healthy |].
    now rewrite !snapshot_healthy. }
  unfold first_fault in Hfault. unfold_snapshot.
  destruct (_conn self) as [c |] eqn:Hc.
  - destruct (query_fault w QWorkflowState) as [e1 |].
    { injection Hfault as ->. eexists. split; [reflexivity |]. repeat (split; [reflexivity |]). apply Hlater. }
    rewrite Hc.
    destruct (query_fault w QWorkflowTimes) as [e2 |].
    { injection Hfault as ->. eexists. split; [reflexivity |]. repeat (split; [reflexivity |]). apply Hlater. }
    rewrite Hc.
    destruct (query_fault w QJobs) as [e3 |].
    { injection Hfault as ->. eexists. split; [reflexivity |]. repeat (split; [reflexivity |]). apply Hlater. }
    rewrite Hc. rewrite Hfault.
    eexists. split; [reflexivity |]. repeat (split; [reflexivity |]). apply Hlater.
  - destruct (connect_fault w) as [e0 |].
    { injection Hfault as ->. eexists. split; [reflexivity |]. repeat (split; [reflexivity |]). apply Hlater. }
    cbn [_conn].
    destruct (query_fault w QWorkflowState) as [e1 |].
    { injection Hfault as ->. eexists. split; [reflexivity |]. repeat (split; [reflexivity |]). apply Hlater. }
    destruct (query_fault w QWorkflowTimes) as [e2 |].
    { injection Hfault as ->. eexists. split; [reflexivity |]. repeat (split; [reflexivity |]). apply Hlater. }
    destruct (query_fault w QJobs) as [e3 |].
    { injection Hfault as ->. eexists. split; [reflexivity |]. repeat (split; [reflexivity |]). apply Hlater. }
    rewrite Hfault.
    eexists. split; [reflexivity |]. repeat (split; [reflexivity |]). apply Hlater.
Qed.

Lemma snapshot_absorbs_operational_error_witness :
  snapshot (locked_store retry_db) 41 fresh_db = (connected_db, Ok (degraded_snapshot 41))
  /\ snd (snapshot (healthy_store retry_db) 43 connected_db)
     = Ok (healthy_read retry_db 43)
  /\ wf_state (healthy_read retry_db 43) = "WORKFLOW_TERMINATED"
  /\ length (jobs (healthy_read retry_db 43)) = 2%nat.
Proof.
  destruct (snapshot_absorbs_operational_error fresh_db (locked_store retry_db) 41 eq_refl)
    as (self' & Hsnap & _ & _ & _ & _ & _ & Hnext).
  assert (Hself : self' = connected_db).
  { vm_compute in Hsnap. now injection Hsnap as <-. }
  subst self'. split; [exact Hsnap |]. split.
  - apply (Hnext (healthy_store retry_db) 43 fresh_db). split; reflexivity.
  - split; reflexivity.
Defined.

(** ** The live queue *)

Lemma try_modules_no_bindings (env : CondorEnv) (a : QueueArgs) (mods : list string) :
  (forall m, import_module env m = Raise ImportError) ->
  try_modules env a mods = Ok None.
Proof.
  intros Himp. induction mods as [| m mods IH]; [reflexivity |].
  cbn [try_modules]. rewrite Himp. cbn. exact IH.
Qed.

(** Without bindings the answer of [query_queue] is that of the
    subprocess fallback. *)
Lemma query_queue_fallback (env : CondorEnv) (a : QueueArgs) (environ : gmap string string) :
  (forall m, import_module env m = Raise ImportError) ->
  snd (query_queue env a environ) = _query_via_subprocess env a.
Proof.
  intros Himp. unfold query_queue, _try_python_bindings.
  now rewrite (try_modules_no_bindings env a _ Himp).
Qed.

(** The failures the fallback names in its [except] clause, and a failed
    or empty run of [condor_q], collapse to the empty list. *)
Lemma query_queue_handled_failures (env : CondorEnv) (a : QueueArgs)
    (environ : gmap string string) :
  (forall m, import_module env m = Raise ImportError) ->
  (forall cmd,
      (exists e, subprocess_run env cmd = Raise e /\ subprocess_handled e = true)
      \/ (exists p, subprocess_run env cmd = Ok p
                   /\ (returncode p <> 0 \/ is_blank (stdout p) = true
                       \/ json_loads env (stdout p) = Raise JSONDecodeError
                       \/ json_loads env (stdout p) = Ok JsonOther))) ->
  snd (query_queue env a environ) = Ok [].
Proof.
  intros Himp Hrun. rewrite (query_queue_fallback env a environ Himp).
  unfold _query_via_subprocess.
  match goal with |- context [subprocess_run env ?c] => destruct (Hrun c) as [H | H] end.
  - destruct H as (e & -> & He). cbn. now rewrite He.
  - destruct H as (p & -> & Hp). cbn.
    destruct (returncode p =? 0) eqn:Hrc; cbn; [| reflexivity].
    destruct (is_blank (stdout p)) eqn:Hblank; cbn; [reflexivity |].
    destruct Hp as [Hp | [Hp | [Hp | Hp]]].
    + apply Z.eqb_eq in Hrc. contradiction.
    + discriminate.
    + now rewrite Hp.
    + now rewrite Hp.
Qed.

(** [_poll_condor] turns every [Exception] of [query_queue] into the empty
    list. *)
Lemma poll_condor_absorbs_exceptions (a : QueueArgs) (env : CondorEnv)
    (environ : gmap string string) (e : exn) :
  snd (query_queue env a environ) = Raise e ->
  is_Exception e = true ->
  snd (_poll_condor a env environ) = Ok [].
Proof.
  intros Hq He. unfold _poll_condor.
  destruct (query_queue env a environ) as [environ' r]. cbn in *. subst r.
  cbn. now rewrite He.
Qed.

(** C6. [query_queue] does raise to its caller: with no bindings
    installed, an error of launching or decoding [condor_q] that the
    fallback's [except] clause does not name (a [condor_q] that may not be
    executed, output that is not valid text) leaves [query_queue] as an
    exception, for every argument and environment.  Only the wrapper
    [_poll_condor] of the monitor loop turns it into the empty list. *)
Theorem query_queue_raises_unlisted_errors (a : QueueArgs) (environ : gmap string string) :
  snd (query_queue (no_bindings_env PermissionError) a environ) = Raise PermissionError
  /\ snd (query_queue (no_bindings_env UnicodeDecodeError) a environ)
     = Raise UnicodeDecodeError
  /\ snd (query_queue (no_bindings_env FileNotFoundError) a environ) = Ok []
  /\ snd (_poll_condor a (no_bindings_env PermissionError) environ) = Ok [].
Proof.
  assert (Himp : forall e m, import_module (no_bindings_env e) m = Raise ImportError)
    by reflexivity.
  split; [| split; [| split]].
  - now rewrite (query_queue_fallback _ a environ (Himp _)).
  - now rewrite (query_queue_fallback _ a environ (Himp _)).
  - now rewrite (query_queue_fallback _ a environ (Himp _)).
  - apply (poll_condor_absorbs_exceptions a _ environ PermissionError); [| reflexivity].
    now rewrite (query_queue_fallback _ a environ (Himp _)).
Qed.

(** ** The merged job view *)

Lemma condor_map_keys (cjs : list ClassAd) (m : gmap pyval ClassAd) (k : pyval) :
  is_Some (foldl (fun condor_map cj =>
                    let node := dict_get cj "DAGNodeName" (PStr "") in
                    if truthy node then <[node := cj]> condor_map else condor_map)
                 m cjs !! k) ->
  is_Some (m !! k)
  \/ exists cj, cj ∈ cjs /\ dict_get cj "DAGNodeName" (PStr "") = k.
Proof.
  revert m. induction cjs as [| cj cjs IH]; intros m Hk; [now left |].
  cbn [foldl] in Hk. apply IH in Hk as [Hk | (cj' & Hin & Hcj')].
  - destruct (truthy (dict_get cj "DAGNodeName" (PStr ""))); [| now left].
    destruct (decide (dict_get cj "DAGNodeName" (PStr "") = k)) as [Heq | Hne].
    + right. exists cj. split; [apply list_elem_of_here | exact Heq].
    + left. now rewrite lookup_insert_ne in Hk.
  - right. exists cj'. split; [now apply list_elem_of_further | exact Hcj'].
Qed.

Lemma condor_map_misses (snap : WorkflowSnapshot) (cjs : list ClassAd) (job : JobRecord) :
  no_overlap snap cjs -> job ∈ jobs snap ->
  build_condor_map (Some cjs) !! PStr (exec_job_id job) = None.
Proof.
  intros Hno Hjob. apply eq_None_not_Some. intros Hsome.
  assert (Hfold : is_Some (foldl (fun condor_map cj =>
                    let node := dict_get cj "DAGNodeName" (PStr "") in
                    if truthy node then <[node := cj]> condor_map else condor_map)
                 (∅ : gmap pyval ClassAd) cjs !! PStr (exec_job_id job))).
  { destruct cjs; [| exact Hsome]. cbn in Hsome. exact Hsome. }
  apply condor_map_keys in Hfold as [Hempty | (cj & Hin & Hkey)].
  - rewrite lookup_empty in Hempty. now destruct Hempty.
  - now apply (Hno cj job Hin Hjob).
Qed.

Lemma jobs_to_show_subset (snap : WorkflowSnapshot) (show_all : bool) (job : JobRecord) :
  job ∈ jobs_to_show snap show_all -> job ∈ jobs snap.
Proof.
  unfold jobs_to_show, compute_jobs. destruct show_all; [trivial |].
  rewrite list_elem_of_filter. tauto.
Qed.

Lemma job_row_cells_miss (int_of_str : string -> option Z)
    (m : gmap pyval ClassAd) (now : Z) (job : JobRecord) :
  m !! PStr (exec_job_id job) = None ->
  job_row_cells int_of_str m now job = job_row_cells int_of_str ∅ now job.
Proof.
  intros Hmiss.
  assert (Hget : dict_get m (PStr (exec_job_id job)) (∅ : ClassAd)
                 = dict_get (∅ : gmap pyval ClassAd) (PStr (exec_job_id job)) ∅).
  { unfold dict_get. now rewrite Hmiss, lookup_empty. }
  unfold job_row_cells. now rewrite Hget.
Qed.

(** The State column shows [disp_state] of each job, whatever the queue. *)
Lemma shown_states_authoritative (int_of_str : string -> option Z) (clock : nat -> Z)
    (snap : WorkflowSnapshot) (show_all : bool) (condor_jobs : option (list ClassAd)) :
  shown_states snap show_all (_make_job_table int_of_str clock snap show_all condor_jobs)
  = disp_state <$> jobs_to_show snap show_all.
Proof.
  unfold shown_states, _make_job_table. cbn [panel_rows].
  fold (jobs_to_show snap show_all).
  set (m := build_condor_map condor_jobs).
  assert (Hrows : forall (l : list JobRecord) (c : nat -> Z),
            (fun row : list Cell => cell_text (default (Plain "") (row !! 2%nat)))
              <$> imap (fun i job => job_row_cells int_of_str m (c i) job) l
            = disp_state <$> l).
  { induction l as [| x l IH]; intros c; [reflexivity |].
    rewrite imap_cons. cbn [fmap list_fmap]. f_equal. apply (IH (c ∘ S)). }
  destruct (jobs_to_show snap show_all) as [| x l] eqn:Hshow; [reflexivity |].
  rewrite take_ge by (rewrite length_imap; lia).
  apply Hrows.
Qed.

(** C7. For a fixed snapshot and any two live-queue lists none of whose
    entries names a job of the snapshot (the empty list among them), the
    display states shown in the job table are the same, namely
    [disp_state] of each job shown; indeed the whole table is the same as
    with no live queue at all. *)
Theorem live_merge_independence (int_of_str : string -> option Z) (clock : nat -> Z)
    (snap : WorkflowSnapshot) (show_all : bool) (queue1 queue2 : list ClassAd) :
  no_overlap snap queue1 ->
  no_overlap snap queue2 ->
  let table1 := _make_job_table int_of_str clock snap show_all (Some queue1) in
  let table2 := _make_job_table int_of_str clock snap show_all (Some queue2) in
  shown_states snap show_all table1 = shown_states snap show_all table2
  /\ shown_states snap show_all table1 = disp_state <$> jobs_to_show snap show_all
  /\ table1 = table2
  /\ table1 = _make_job_table int_of_str clock snap show_all (Some [])
  /\ table1 = _make_job_table int_of_str clock snap show_all None.
Proof.
  intros Hno1 Hno2 table1 table2.
  assert (Hsame : forall queue, no_overlap snap queue ->
            _make_job_table int_of_str clock snap show_all (Some queue)
            = _make_job_table int_of_str clock snap show_all None).
  { intros queue Hno.
    assert (Himap :
      imap (fun i job => job_row_cells int_of_str (build_condor_map (Some queue)) (clock i) job)
           (jobs_to_show snap show_all)
      = imap (fun i job => job_row_cells int_of_str (build_condor_map None) (clock i) job)
           (jobs_to_show snap show_all)).
    { apply imap_ext. intros i job Hjob.
      apply list_elem_of_lookup_2, jobs_to_show_subset in Hjob.
      apply job_row_cells_miss, (condor_map_misses snap queue job Hno Hjob). }
    unfold _make_job_table. fold (jobs_to_show snap show_all). cbv zeta.
    now rewrite Himap. }
  split; [| split; [| split; [| split]]].
  - unfold table1, table2. now rewrite !shown_states_authoritative.
  - apply shown_states_authoritative.
  - unfold table1, table2. now rewrite (Hsame queue1 Hno1), (Hsame queue2 Hno2).
  - unfold table1. now rewrite (Hsame queue1 Hno1).
  - apply (Hsame queue1 Hno1).
Qed.

Lemma live_merge_independence_witness :
  no_overlap running_snapshot foreign_queue
  /\ no_overlap running_snapshot []
  /\ shown_states running_snapshot false
       (_make_job_table no_string_status (fun _ => 9) running_snapshot false
          (Some foreign_queue))
     = shown_states running_snapshot false
         (_make_job_table no_string_status (fun _ => 9) running_snapshot false (Some []))
  /\ shown_states running_snapshot false
       (_make_job_table no_string_status (fun _ => 9) running_snapshot false
          (Some matching_queue))
     = ["RUNNING"].
Proof.
  assert (H1 : no_overlap running_snapshot foreign_queue).
  { intros cj job Hcj Hjob.
    apply list_elem_of_singleton in Hcj as ->.
    apply list_elem_of_singleton in Hjob as ->.
    vm_compute. discriminate. }
  assert (H2 : no_overlap running_snapshot []).
  { intros cj job Hcj _. inversion Hcj. }
  split; [exact H1 |]. split; [exact H2 |]. split.
  - apply (live_merge_independence no_string_status (fun _ => 9) running_snapshot false
             foreign_queue [] H1 H2).
  - reflexivity.
Defined.

(** ** The refresh loop *)


Section RefreshLoop.

Variable world : nat -> Tick.
Variable poll_interval : Q.
Variable queue_args : QueueArgs.
Variable db : StampedeDB.
Variable snaps : nat -> WorkflowSnapshot.
Variable queues : nat -> list ClassAd.

Hypothesis connected : is_Some (_conn db).


(** A cycle that answers returns the snapshot and the queue, logs the
    call, and leaves the store object as it was. *)
Lemma refresh_answers (k : nat) (st : MonitorState) :
  st_db st = db ->
  cycle_answers world queue_args db k (snaps k) (queues k) ->
  exists environ',
    _refresh world queue_args k st
    = ({| st_db := db; st_environ := environ';
          st_trace := (st_trace st ++ [Refresh k])%list |},
       Ok (snaps k, queues k, tick_ts (world k))).
Proof.
  intros Hdb [Hsnap Hpoll]. unfold _refresh. cbn [emit st_db st_environ st_trace].
  rewrite Hdb.
  pose proof (snapshot_keeps_connection (tick_store (world k)) (tick_now (world k)) db
                connected) as Hkeep.
  destruct (snapshot (tick_store (world k)) (tick_now (world k)) db) as [db' r].
  cbn [fst snd] in Hkeep, Hsnap. subst db' r.
  specialize (Hpoll (st_environ st)).
  destruct (_poll_condor queue_args (tick_condor (world k)) (st_environ st))
    as [environ' rc].
  cbn [snd] in Hpoll. subst rc. now exists environ'.
Qed.




End RefreshLoop.



(** * Further properties of the code *)

(** ** Formatting and derived fields *)

(** On whole seconds: a negative duration shows as a dash; a non-negative
    one is split into hours, minutes and seconds that add up to it. *)
Lemma fmt_duration_whole (sec : Z) :
  (sec < 0 -> fmt_duration (Some sec) = "-")
  /\ (0 <= sec ->
      exists h m s : Z,
        sec = 3600 * h + 60 * m + s /\ 0 <= h /\ 0 <= m < 60 /\ 0 <= s < 60
        /\ fmt_duration (Some sec) =
           if h =? 0 then
             if m =? 0 then pretty s +:+ "s"
             else pretty m +:+ "m" +:+ pad2 s +:+ "s"
           else pretty h +:+ "h" +:+ pad2 m +:+ "m" +:+ pad2 s +:+ "s").
Proof.
  split.
  - intros Hneg. unfold fmt_duration.
    destruct (Z.ltb_spec sec 0); [reflexivity | lia].
  - intros Hpos. exists (sec / 60 / 60), ((sec / 60) mod 60), (sec mod 60).
    pose proof (Z.div_mod sec 60 ltac:(lia)) as Hsec.
    pose proof (Z.div_mod (sec / 60) 60 ltac:(lia)) as Hmin.
    pose proof (Z.mod_pos_bound sec 60 ltac:(lia)) as Hs.
    pose proof (Z.mod_pos_bound (sec / 60) 60 ltac:(lia)) as Hm.
    assert (Hq : 0 <= sec / 60) by (apply Z.div_pos; lia).
    assert (Hh : 0 <= sec / 60 / 60) by (apply Z.div_pos; lia).
    split; [lia |]. split; [exact Hh |]. split; [exact Hm |]. split; [exact Hs |].
    unfold fmt_duration.
    destruct (Z.ltb_spec sec 0); [lia |].
    destruct (Z.ltb_spec sec 60) as [Hlt | Hge].
    + assert (Hz : sec / 60 = 0) by (apply Z.div_small; lia).
      rewrite Hz. change (0 / 60 =? 0) with true. change (0 mod 60 =? 0) with true.
      cbv iota. now rewrite Z.mod_small by lia.
    + assert (Hq1 : 1 <= sec / 60) by (apply Z.div_le_lower_bound; lia).
      destruct (Z.ltb_spec (sec / 60) 60) as [Hlt | Hge'].
      * assert (Hz : sec / 60 / 60 = 0) by (apply Z.div_small; lia).
        rewrite Hz. change (0 =? 0) with true. cbv iota.
        rewrite (Z.mod_small (sec / 60)) by lia.
        destruct (Z.eqb_spec (sec / 60) 0); [lia | reflexivity].
      * assert (Hh1 : 1 <= sec / 60 / 60) by (apply Z.div_le_lower_bound; lia).
        destruct (Z.eqb_spec (sec / 60 / 60) 0); [lia | reflexivity].
Qed.

(** Below 100, [pad2] writes the tens digit and the units digit. *)
Lemma pad2_two_digits (n : Z) : 0 <= n < 100 -> pad2 n = two_digits n.
Proof.
  intros Hn.
  assert (Hall : forallb (fun k => bool_decide (pad2 (Z.of_nat k) = two_digits (Z.of_nat k)))
                   (seq 0 100) = true) by (vm_compute; reflexivity).
  rewrite forallb_forall in Hall.
  assert (Hin : In (Z.to_nat n) (seq 0 100)) by (apply in_seq; lia).
  apply Hall in Hin. rewrite Z2Nat.id in Hin by lia.
  exact (bool_decide_eq_true_1 _ Hin).
Qed.

(** [int] of a non-negative number is its floor. *)
Lemma py_int_nonneg (x : Q) :
  (0 <= x)%Q ->
  0 <= py_int x /\ (inject_Z (py_int x) <= x)%Q /\ (x < inject_Z (py_int x + 1))%Q.
Proof.
  intros Hx. unfold py_int. rewrite (proj2 (Qle_bool_iff 0 x) Hx).
  split; [| split; [apply Qfloor_le | apply Qlt_floor]].
  change 0 with (Qfloor 0). now apply Qfloor_resp_le.
Qed.

Lemma fmt_duration_float_nonneg (x : Q) :
  (0 <= x)%Q -> fmt_duration_float (Some x) = fmt_duration (Some (py_int x)).
Proof.
  intros Hx. destruct (py_int_nonneg x Hx) as (Hz & _).
  unfold fmt_duration_float, fmt_duration.
  rewrite (proj2 (Qle_bool_iff 0 x) Hx). cbn [negb].
  destruct (Z.ltb_spec (py_int x) 0); [lia | reflexivity].
Qed.

(** X1. [fmt_duration] shows nothing but a dash for a negative duration.
    A non-negative duration [x], fractional or not, is cut to whole
    seconds and those are split into hours, minutes below 60 and seconds
    below 60: [3600 h + 60 m + s <= x < 3600 h + 60 m + s + 1].  The
    leading units that are zero are dropped and the later ones are written
    with exactly two digits.  On whole seconds it is the [fmt_duration] of
    the integer grid. *)
Theorem fmt_duration_decomposes (x : Q) :
  ((x < 0)%Q -> fmt_duration_float (Some x) = "-")
  /\ ((0 <= x)%Q ->
      exists h m s : Z,
        (inject_Z (3600 * h + 60 * m + s) <= x)%Q
        /\ (x < inject_Z (3600 * h + 60 * m + s + 1))%Q
        /\ 0 <= h /\ 0 <= m < 60 /\ 0 <= s < 60
        /\ fmt_duration_float (Some x) =
           if h =? 0 then
             if m =? 0 then pretty s +:+ "s"
             else pretty m +:+ "m" +:+ two_digits s +:+ "s"
           else pretty h +:+ "h" +:+ two_digits m +:+ "m" +:+ two_digits s +:+ "s")
  /\ (forall sec : Z, fmt_duration_float (Some (inject_Z sec)) = fmt_duration (Some sec)).
Proof.
  split; [| split].
  - intros Hneg. unfold fmt_duration_float.
    destruct (Qle_bool 0 x) eqn:Hle; [| reflexivity].
    apply Qle_bool_iff in Hle. exfalso. exact (Qlt_not_le _ _ Hneg Hle).
  - intros Hx. destruct (py_int_nonneg x Hx) as (Hz & Hlo & Hhi).
    destruct (proj2 (fmt_duration_whole (py_int x)) Hz)
      as (h & m & s & Hsum & Hh & Hm & Hs & Htext).
    exists h, m, s. rewrite <- Hsum.
    split; [exact Hlo |]. split; [exact Hhi |].
    split; [exact Hh |]. split; [exact Hm |]. split; [exact Hs |].
    rewrite (fmt_duration_float_nonneg x Hx), Htext.
    rewrite (pad2_two_digits s) by lia. rewrite (pad2_two_digits m) by lia.
    reflexivity.
  - intros sec. destruct (Z.le_gt_cases 0 sec) as [Hpos | Hneg].
    + rewrite fmt_duration_float_nonneg by (rewrite <- (Zle_Qle 0); exact Hpos).
      unfold py_int. rewrite (proj2 (Qle_bool_iff 0 (inject_Z sec)))
        by (rewrite <- (Zle_Qle 0); exact Hpos).
      now rewrite Qfloor_Z.
    + unfold fmt_duration_float, fmt_duration.
      destruct (Qle_bool 0 (inject_Z sec)) eqn:Hle.
      * apply Qle_bool_iff in Hle. rewrite <- (Zle_Qle 0) in Hle. lia.
      * destruct (Z.ltb_spec sec 0); [reflexivity | lia].
Qed.

Lemma fmt_duration_decomposes_witness :
  fmt_duration_float (Some (- (1 # 2))%Q) = "-"
  /\ fmt_duration_float (Some (599 # 10)%Q) = "59s"
  /\ fmt_duration_float (Some (7451 # 2)%Q) = "1h02m05s".
Proof.
  split; [| split].
  - apply (proj1 (fmt_duration_decomposes (- (1 # 2))%Q)). reflexivity.
  - destruct (proj1 (proj2 (fmt_duration_decomposes (599 # 10)%Q)) ltac:(discriminate))
      as (h & m & s & Hlo & Hhi & Hh & Hm & Hs & ->).
    unfold Qle, Qlt in Hlo, Hhi. cbn in Hlo, Hhi.
    assert (h = 0) by lia. assert (m = 0) by lia. assert (s = 59) by lia.
    subst. reflexivity.
  - destruct (proj1 (proj2 (fmt_duration_decomposes (7451 # 2)%Q)) ltac:(discriminate))
      as (h & m & s & Hlo & Hhi & Hh & Hm & Hs & ->).
    unfold Qle, Qlt in Hlo, Hhi. cbn in Hlo, Hhi.
    assert (h = 1) by lia. assert (m = 2) by lia. assert (s = 5) by lia.
    subst. reflexivity.
Defined.

(** X2. For a job row returned by [get_jobs] whose start and end times are
    both set and non-zero, [duration] is the latest terminal timestamp
    minus the earliest EXECUTE timestamp, whatever the clock and the
    current state: it spans all attempts of a retried job.  A job whose
    earliest EXECUTE row is at timestamp 0 has no duration at all. *)
Theorem duration_spans_first_start_to_last_end
    (w : Store) (self self' : StampedeDB) (rs : list JobRecord) (r : JobRecord)
    (now : Z) :
  get_jobs w self = (self', Ok rs) ->
  r ∈ rs ->
  (forall a b : Z,
      start_time r = Some a -> end_time r = Some b -> a <> 0 -> b <> 0 ->
      duration now r = Some (b - a)
      /\ earliest_of (contents w) (job_id r) ["EXECUTE"] (Some a)
      /\ latest_of (contents w) (job_id r) terminal_states (Some b))
  /\ (start_time r = Some 0 -> duration now r = None).
Proof.
  intros Hget Hr. apply get_jobs_rows in Hget. subst rs.
  apply elem_of_select_jobs in Hr as (j & _ & ->). split.
  - intros a b Ha Hb Ha0 Hb0. split; [| split].
    + unfold duration. rewrite Ha, Hb. cbn.
      destruct (Z.eqb_spec a 0); [contradiction |].
      destruct (Z.eqb_spec b 0); [contradiction | reflexivity].
    + rewrite <- Ha. apply sql_min_earliest.
    + rewrite <- Hb. apply sql_max_latest.
  - intros H0. unfold duration. now rewrite H0.
Qed.

Lemma duration_spans_first_start_to_last_end_witness :
  retried_job_record ∈ select_jobs retry_db
  /\ duration 99 retried_job_record = Some 30.
Proof.
  assert (Hin : retried_job_record ∈ select_jobs retry_db).
  { vm_compute. apply list_elem_of_here. }
  split; [exact Hin |].
  destruct (duration_spans_first_start_to_last_end (healthy_store retry_db)
              connected_db connected_db (select_jobs retry_db) retried_job_record 99
              eq_refl Hin) as [Hspan _].
  destruct (Hspan 5 35 eq_refl eq_refl) as [Hd _]; [lia | lia | exact Hd].
Defined.

(** ** Counting jobs *)

Lemma count_if_decide (P : JobRecord -> Prop) `{!forall j, Decision (P j)}
    (js : list JobRecord) :
  count_if (fun j => bool_decide (P j)) js = length (filter P js).
Proof.
  induction js as [| j js IH]; [reflexivity |].
  cbn [count_if foldr]. fold (count_if (fun j => bool_decide (P j)) js).
  rewrite filter_cons. destruct (decide (P j)) as [Hj | Hj].
  - rewrite bool_decide_eq_true_2 by exact Hj. cbn. now rewrite IH.
  - rewrite bool_decide_eq_false_2 by exact Hj. exact IH.
Qed.

(** The dictionary that the counting loop of [job_counts] has built after
    the jobs [js], started from [acc]. *)
Lemma job_counts_fold (js : list JobRecord) (acc : gmap string nat) (st : string) :
  foldl (fun counts j =>
           <[disp_state j := (dict_get counts (disp_state j) 0 + 1)%nat]> counts)
        acc js !! st
  = match length (filter (fun j => disp_state j = st) js) with
    | O => acc !! st
    | S n => Some (dict_get acc st 0 + S n)%nat
    end.
Proof.
  revert acc. induction js as [| j js IH]; intros acc; [reflexivity |].
  cbn [foldl]. rewrite IH, filter_cons.
  set (acc' := <[disp_state j := (dict_get acc (disp_state j) 0 + 1)%nat]> acc).
  destruct (decide (disp_state j = st)) as [Hj | Hj].
  - assert (Hins : acc' !! st = Some (dict_get acc st 0 + 1)%nat).
    { subst st. apply lookup_insert_eq. }
    assert (Hget : dict_get acc' st 0%nat = (dict_get acc st 0 + 1)%nat).
    { unfold dict_get at 1. now rewrite Hins. }
    cbn [length]. rewrite Hget, Hins.
    destruct (length (filter (fun j0 => disp_state j0 = st) js)) as [| n];
      f_equal; lia.
  - assert (Hins : acc' !! st = acc !! st).
    { apply lookup_insert_ne. exact Hj. }
    assert (Hget : dict_get acc' st 0%nat = dict_get acc st 0%nat).
    { unfold dict_get. now rewrite Hins. }
    rewrite Hget, Hins. reflexivity.
Qed.

(** X3. [job_counts] maps each display state that occurs among the jobs to
    the number of jobs in it and holds no other key; in particular the
    entries for SUCCESS, FAILED and RUNNING are [done_count],
    [failed_count] and [running_count]. *)
Theorem job_counts_per_state (s : WorkflowSnapshot) (st : string) :
  job_counts s !! st
  = match length (filter (fun j => disp_state j = st) (jobs s)) with
    | O => None
    | S n => Some (S n)
    end
  /\ dict_get (job_counts s) st 0%nat
     = length (filter (fun j => disp_state j = st) (jobs s))
  /\ dict_get (job_counts s) "SUCCESS" 0%nat = done_count s
  /\ dict_get (job_counts s) "FAILED" 0%nat = failed_count s
  /\ dict_get (job_counts s) "RUNNING" 0%nat = running_count s.
Proof.
  assert (Hget : forall st', dict_get (job_counts s) st' 0%nat
                   = length (filter (fun j => disp_state j = st') (jobs s))).
  { intros st'. unfold dict_get, job_counts. rewrite job_counts_fold.
    destruct (length (filter (fun j => disp_state j = st') (jobs s)));
      [now rewrite lookup_empty | reflexivity]. }
  split; [| split; [apply Hget | split; [| split]]].
  - unfold job_counts. rewrite job_counts_fold.
    destruct (length (filter (fun j => disp_state j = st) (jobs s)));
      [apply lookup_empty | reflexivity].
  - rewrite Hget. unfold done_count. now rewrite count_if_decide.
  - rewrite Hget. unfold failed_count. now rewrite count_if_decide.
  - rewrite Hget. unfold running_count. now rewrite count_if_decide.
Qed.

Ltac eval_ground_decisions :=
  repeat match goal with
         | |- context [bool_decide ?P] =>
             is_ground P;
             let r := eval vm_compute in (bool_decide P) in
             change (bool_decide P) with r
         end.

(** A display state falls under exactly one label of the status bar, or
    under none of them. *)
Lemma one_label_per_state (ds : string) (n1 n2 n3 n4 n5 n6 : nat) :
  ((if bool_decide (ds = "SUCCESS") then 1 + n1 else n1)
   + (if bool_decide (ds = "FAILED") then 1 + n2 else n2)
   + (if bool_decide (ds = "RUNNING") then 1 + n3 else n3)
   + (if bool_decide (ds ∈ ["QUEUED"; "PRE"; "POST"]) then 1 + n4 else n4)
   + (if bool_decide (ds = "UNSUBMITTED") then 1 + n5 else n5)
   + (if bool_decide (ds ∉ ["SUCCESS"; "FAILED"; "RUNNING"; "QUEUED"; "PRE"; "POST";
                            "UNSUBMITTED"])
      then 1 + n6 else n6))%nat
  = S (n1 + n2 + n3 + n4 + n5 + n6)%nat.
Proof.
  destruct (decide (ds ∈ ["SUCCESS"; "FAILED"; "RUNNING"; "QUEUED"; "PRE"; "POST";
                          "UNSUBMITTED"])) as [Hin | Hout].
  - rewrite !elem_of_cons, elem_of_nil in Hin.
    destruct Hin as [-> | [-> | [-> | [-> | [-> | [-> | [-> | []]]]]]]];
      eval_ground_decisions; cbv beta iota; lia.
  - rewrite (bool_decide_eq_true_2 _ Hout).
    rewrite !elem_of_cons, elem_of_nil in Hout.
    rewrite !(bool_decide_eq_false_2 (ds = _)) by tauto.
    rewrite (bool_decide_eq_false_2 (ds ∈ _))
      by (rewrite !elem_of_cons, elem_of_nil; tauto).
    lia.
Qed.

Lemma labelled_counts_total (js : list JobRecord) :
  (count_if (fun x => bool_decide (disp_state x = "SUCCESS")) js
   + count_if (fun x => bool_decide (disp_state x = "FAILED")) js
   + count_if (fun x => bool_decide (disp_state x = "RUNNING")) js
   + count_if (fun x => bool_decide (disp_state x ∈ ["QUEUED"; "PRE"; "POST"])) js
   + count_if (fun x => bool_decide (disp_state x = "UNSUBMITTED")) js
   + count_if (fun x => bool_decide
        (disp_state x ∉ ["SUCCESS"; "FAILED"; "RUNNING"; "QUEUED"; "PRE"; "POST";
                         "UNSUBMITTED"])) js)%nat
  = length js.
Proof.
  induction js as [| j js IH]; [reflexivity |].
  cbn [count_if foldr length]. rewrite <- IH. apply one_label_per_state.
Qed.

(** X4. The numbers that the status bar shows (Done, Run, Queued, and Wait
    and Fail when they are not zero) count disjoint sets of jobs: together
    with the jobs in a display state that has no label (DONE, HELD, and
    raw states passed through) they add up to the number of jobs.  So the
    labelled numbers never exceed the total, and they fall short of it
    whenever a job is DONE or HELD. *)
Theorem status_counts_partition (s : WorkflowSnapshot) :
  (sum_list (snd <$> counts_text s)
   + length (filter (fun j => disp_state j ∉ ["SUCCESS"; "FAILED"; "RUNNING"; "QUEUED";
                                              "PRE"; "POST"; "UNSUBMITTED"]) (jobs s))
   = total_jobs s)%nat
  /\ (done_count s + failed_count s + running_count s + queued_count s
      <= total_jobs s)%nat.
Proof.
  pose proof (labelled_counts_total (jobs s)) as Htotal.
  rewrite (count_if_decide
             (fun j => disp_state j ∉ ["SUCCESS"; "FAILED"; "RUNNING"; "QUEUED"; "PRE";
                                       "POST"; "UNSUBMITTED"])) in Htotal.
  assert (Hsum : sum_list (snd <$> counts_text s)
                 = (done_count s + running_count s + queued_count s
                    + count_if (fun j => bool_decide (disp_state j = "UNSUBMITTED")) (jobs s)
                    + failed_count s)%nat).
  { unfold counts_text.
    destruct (Nat.ltb_spec 0 (count_if (fun j => bool_decide (disp_state j = "UNSUBMITTED"))
                                (jobs s))) as [Hu | Hu];
      destruct (Nat.ltb_spec 0 (failed_count s)) as [Hf | Hf]; cbn; lia. }
  unfold total_jobs, done_count, failed_count, running_count, queued_count in *.
  split; lia.
Qed.

(** X5. [compute_jobs] and [infra_jobs] split the jobs of a snapshot in
    two: every job is in exactly one of them, the compute jobs are those
    of type "compute", and each list keeps the jobs in catalog order. *)
Theorem compute_infra_partition (s : WorkflowSnapshot) :
  (compute_jobs s ++ infra_jobs s)%list ≡ₚ jobs s
  /\ (length (compute_jobs s) + length (infra_jobs s) = total_jobs s)%nat
  /\ compute_jobs s `sublist_of` jobs s
  /\ infra_jobs s `sublist_of` jobs s
  /\ (forall j, j ∈ jobs s ->
        (j ∈ compute_jobs s <-> type_desc j = "compute")
        /\ (j ∈ infra_jobs s <-> type_desc j <> "compute")).
Proof.
  assert (Hperm : (compute_jobs s ++ infra_jobs s)%list ≡ₚ jobs s).
  { unfold compute_jobs, infra_jobs. induction (jobs s) as [| j js IH]; [reflexivity |].
    rewrite !filter_cons. destruct (is_compute j) eqn:Hc.
    - rewrite decide_True by reflexivity. rewrite decide_False by discriminate.
      cbn. now rewrite IH.
    - rewrite decide_False by discriminate. rewrite decide_True by reflexivity.
      rewrite <- Permutation_middle. now rewrite IH. }
  split; [exact Hperm |]. split; [| split; [| split]].
  - unfold total_jobs. rewrite <- Hperm. now rewrite length_app.
  - apply sublist_filter.
  - apply sublist_filter.
  - intros j Hj. unfold compute_jobs, infra_jobs, is_compute.
    rewrite !list_elem_of_filter. split.
    + rewrite bool_decide_eq_true. tauto.
    + rewrite bool_decide_eq_false. tauto.
Qed.

Lemma compute_infra_partition_witness :
  stage_in_job ∈ infra_jobs mixed_snapshot
  /\ (length (compute_jobs mixed_snapshot) + length (infra_jobs mixed_snapshot) = 5)%nat.
Proof.
  destruct (compute_infra_partition mixed_snapshot) as (_ & Hlen & _ & _ & Hmem).
  split; [| exact Hlen].
  apply (Hmem stage_in_job).
  - repeat constructor.
  - discriminate.
Defined.

(** ** The workflow-level queries *)

#[local] Instance ws_asc_trans : Transitive ws_asc.
Proof. intros a b c. unfold ws_asc. lia. Qed.
#[local] Instance ws_asc_total : Total ws_asc.
Proof. intros a b. unfold ws_asc. lia. Qed.
#[local] Instance ws_desc_trans : Transitive ws_desc.
Proof. intros a b c. unfold ws_desc. lia. Qed.
#[local] Instance ws_desc_total : Total ws_desc.
Proof. intros a b. unfold ws_desc. lia. Qed.

(** The scan of [get_workflow_times] over rows in ascending time order
    keeps, for each of the two states, the greatest timestamp seen. *)
Lemma workflow_times_scan (rows : list workflowstate_row) :
  StronglySorted ws_asc rows ->
  let times :=
    foldl (fun acc row =>
             if bool_decide (ws_state row = "WORKFLOW_STARTED") then
               {| wt_start := Some (ws_timestamp row); wt_end := wt_end acc |}
             else if bool_decide (ws_state row = "WORKFLOW_TERMINATED") then
               {| wt_start := wt_start acc; wt_end := Some (ws_timestamp row) |}
             else acc)
          {| wt_start := None; wt_end := None |} rows in
  forall (st : string) (t : option Z),
    (st = "WORKFLOW_STARTED" /\ t = wt_start times)
    \/ (st = "WORKFLOW_TERMINATED" /\ t = wt_end times) ->
    match t with
    | None => forall row, row ∈ rows -> ws_state row <> st
    | Some m =>
        (exists row, row ∈ rows /\ ws_state row = st /\ ws_timestamp row = m)
        /\ forall row, row ∈ rows -> ws_state row = st -> ws_timestamp row <= m
    end.
Proof.
  induction rows as [| x rows IH] using rev_ind; intros Hsorted times st t Hst.
  - subst times. cbn in Hst. destruct Hst as [[_ ->] | [_ ->]];
      intros row Hrow; inversion Hrow.
  - apply StronglySorted_app in Hsorted as (Hlast & Hsorted & _).
    specialize (IH Hsorted). cbn zeta in IH.
    subst times. rewrite foldl_snoc in Hst.
    set (prev := foldl _ _ rows) in *.
    assert (Hx : forall row, row ∈ rows -> ws_timestamp row <= ws_timestamp x).
    { intros row Hrow. apply (Hlast row x Hrow). apply list_elem_of_here. }
    assert (Hkeep : forall t', (st = "WORKFLOW_STARTED" /\ t' = wt_start prev)
                               \/ (st = "WORKFLOW_TERMINATED" /\ t' = wt_end prev) ->
                      ws_state x <> st ->
                      match t' with
                      | None => forall row, row ∈ (rows ++ [x])%list -> ws_state row <> st
                      | Some m =>
                          (exists row, row ∈ (rows ++ [x])%list /\ ws_state row = st
                                       /\ ws_timestamp row = m)
                          /\ forall row, row ∈ (rows ++ [x])%list -> ws_state row = st ->
                               ws_timestamp row <= m
                      end).
    { intros t' Ht' Hne. specialize (IH st t' Ht'). destruct t' as [m |].
      - destruct IH as [(row & Hrow & Hs & Hm) Hmax]. split.
        + exists row. split; [apply elem_of_app; now left | now split].
        + intros row' Hrow' Hs'. apply elem_of_app in Hrow' as [Hrow' | Hrow'].
          * now apply Hmax.
          * apply list_elem_of_singleton in Hrow' as ->. contradiction.
      - intros row Hrow. apply elem_of_app in Hrow as [Hrow | Hrow]; [now apply IH |].
        apply list_elem_of_singleton in Hrow as ->. exact Hne. }
    assert (Hnew : ws_state x = st ->
                   (exists row, row ∈ (rows ++ [x])%list /\ ws_state row = st
                                /\ ws_timestamp row = ws_timestamp x)
                   /\ forall row, row ∈ (rows ++ [x])%list -> ws_state row = st ->
                        ws_timestamp row <= ws_timestamp x).
    { intros Hs. split.
      - exists x. split; [apply elem_of_app; right; apply list_elem_of_here | now split].
      - intros row Hrow _. apply elem_of_app in Hrow as [Hrow | Hrow]; [now apply Hx |].
        apply list_elem_of_singleton in Hrow as ->. lia. }
    destruct (decide (ws_state x = "WORKFLOW_STARTED")) as [Hs | Hs].
    + rewrite bool_decide_eq_true_2 in Hst by exact Hs. cbn in Hst.
      destruct Hst as [[-> ->] | [-> ->]].
      * now apply Hnew.
      * apply Hkeep; [now right |]. rewrite Hs. discriminate.
    + rewrite bool_decide_eq_false_2 in Hst by exact Hs.
      destruct (decide (ws_state x = "WORKFLOW_TERMINATED")) as [Ht | Ht].
      * rewrite bool_decide_eq_true_2 in Hst by exact Ht. cbn in Hst.
        destruct Hst as [[-> ->] | [-> ->]].
        -- apply Hkeep; [now left | exact Hs].
        -- now apply Hnew.
      * rewrite bool_decide_eq_false_2 in Hst by exact Ht.
        destruct Hst as [[-> ->] | [-> ->]].
        -- apply Hkeep; [now left | exact Hs].
        -- apply Hkeep; [now right | exact Ht].
Qed.

(** The latest timestamp among the workflow rows in state [st]. *)
Lemma select_workflow_times_latest (d : Database) (st : string) (t : option Z) :
  (st = "WORKFLOW_STARTED" /\ t = wt_start (select_workflow_times d))
  \/ (st = "WORKFLOW_TERMINATED" /\ t = wt_end (select_workflow_times d)) ->
  match t with
  | None => forall row, row ∈ tbl_workflowstate d -> ws_state row <> st
  | Some m =>
      (exists row, row ∈ tbl_workflowstate d /\ ws_state row = st /\ ws_timestamp row = m)
      /\ forall row, row ∈ tbl_workflowstate d -> ws_state row = st -> ws_timestamp row <= m
  end.
Proof.
  intros Hst.
  pose proof (workflow_times_scan (order_by ws_asc (tbl_workflowstate d))
                (StronglySorted_merge_sort ws_asc _) st t Hst) as Hscan.
  destruct t as [m |].
  - destruct Hscan as [(row & Hrow & Hs & Hm) Hmax]. split.
    + exists row. split; [| now split].
      exact (proj1 (order_by_elem ws_asc row (tbl_workflowstate d)) Hrow).
    + intros row' Hrow'. apply Hmax.
      exact (proj2 (order_by_elem ws_asc row' (tbl_workflowstate d)) Hrow').
  - intros row Hrow. apply Hscan.
    exact (proj2 (order_by_elem ws_asc row (tbl_workflowstate d)) Hrow).
Qed.

(** X6. [get_workflow_times] returns as start the greatest timestamp among
    the WORKFLOW_STARTED rows and as end the greatest among the
    WORKFLOW_TERMINATED rows (a later start or end supersedes an earlier
    one), each absent when there is no such row. *)
Theorem workflow_times_latest_start_and_end
    (w : Store) (self self' : StampedeDB) (times : WfTimes) :
  get_workflow_times w self = (self', Ok times) ->
  latest_workflow_row (contents w) "WORKFLOW_STARTED" (wt_start times)
  /\ latest_workflow_row (contents w) "WORKFLOW_TERMINATED" (wt_end times).
Proof.
  intros Hget.
  assert (Htimes : times = select_workflow_times (contents w)).
  { revert Hget. unfold get_workflow_times, m_bind, _conn_or_raise, m_bind, connect, execute.
    destruct (_conn self); [| destruct (connect_fault w)];
      destruct (query_fault w QWorkflowTimes); intros [= _ H]; now subst. }
  subst times. split.
  - apply (select_workflow_times_latest (contents w) "WORKFLOW_STARTED"). now left.
  - apply (select_workflow_times_latest (contents w) "WORKFLOW_TERMINATED"). now right.
Qed.

Lemma workflow_times_latest_start_and_end_witness :
  get_workflow_times (healthy_store retry_db) connected_db
  = (connected_db, Ok {| wt_start := Some 0; wt_end := Some 40 |})
  /\ latest_workflow_row retry_db "WORKFLOW_TERMINATED" (Some 40).
Proof.
  split; [reflexivity |].
  apply (workflow_times_latest_start_and_end (healthy_store retry_db) connected_db
           connected_db {| wt_start := Some 0; wt_end := Some 40 |} eq_refl).
Defined.

(** ** Snapshots *)

(** What a poll returns is the degraded snapshot or the full read of the
    store, and what it raises is the first fault. *)
Lemma snapshot_outcomes (w : Store) (now : Z) (self : StampedeDB) :
  match first_fault self w with
  | None => snd (snapshot w now self) = Ok (healthy_read (contents w) now)
  | Some e =>
      snd (snapshot w now self)
      = if bool_decide (e = OperationalError) then Ok (degraded_snapshot now)
        else Raise e
  end.
Proof.
  unfold first_fault. unfold_snapshot.
  destruct (_conn self) as [c |] eqn:Hc.
  - destruct (query_fault w QWorkflowState) as [e |];
      [cbn; now destruct (bool_decide (e = OperationalError)) |].
    rewrite Hc.
    destruct (query_fault w QWorkflowTimes) as [e |];
      [cbn; now destruct (bool_decide (e = OperationalError)) |].
    rewrite Hc.
    destruct (query_fault w QJobs) as [e |];
      [cbn; now destruct (bool_decide (e = OperationalError)) |].
    rewrite Hc.
    destruct (query_fault w QRecentEvents) as [e |];
      [cbn; now destruct (bool_decide (e = OperationalError)) | reflexivity].
  - destruct (connect_fault w) as [e |];
      [cbn; now destruct (bool_decide (e = OperationalError)) |].
    cbn [_conn].
    destruct (query_fault w QWorkflowState) as [e |];
      [cbn; now destruct (bool_decide (e = OperationalError)) |].
    destruct (query_fault w QWorkflowTimes) as [e |];
      [cbn; now destruct (bool_decide (e = OperationalError)) |].
    destruct (query_fault w QJobs) as [e |];
      [cbn; now destruct (bool_decide (e = OperationalError)) |].
    destruct (query_fault w QRecentEvents) as [e |];
      [cbn; now destruct (bool_decide (e = OperationalError)) | reflexivity].
Qed.

(** X7. A poll never returns a mixture: whatever the store does, the
    snapshot that [snapshot] returns is either the degraded snapshot or the
    full read of all four queries.  When a later query fails, the rows the
    earlier queries had already returned are dropped with it. *)
Theorem snapshot_all_or_nothing
    (w : Store) (now : Z) (self self' : StampedeDB) (snap : WorkflowSnapshot) :
  snapshot w now self = (self', Ok snap) ->
  (snap = healthy_read (contents w) now /\ first_fault self w = None)
  \/ (snap = degraded_snapshot now /\ first_fault self w = Some OperationalError).
Proof.
  intros Hsnap. pose proof (snapshot_outcomes w now self) as Hout.
  rewrite Hsnap in Hout. cbn [snd] in Hout.
  destruct (first_fault self w) as [e |].
  - right. case_bool_decide as He; [| discriminate].
    subst e. injection Hout as ->. now split.
  - left. injection Hout as ->. now split.
Qed.

Lemma snapshot_all_or_nothing_witness :
  snd (snapshot (locked_store retry_db) 41 connected_db) = Ok (degraded_snapshot 41)
  /\ wf_state (healthy_read retry_db 41) = "WORKFLOW_TERMINATED"
  /\ first_fault connected_db (locked_store retry_db) = Some OperationalError.
Proof.
  destruct (snapshot_all_or_nothing (locked_store retry_db) 41 connected_db connected_db
              (degraded_snapshot 41) eq_refl) as [[Hsnap _] | [_ Hfault]].
  - discriminate Hsnap.
  - split; [reflexivity |]. split; [reflexivity | exact Hfault].
Defined.

(** X8. [snapshot] swallows nothing but the operational error: when the
    first operation of a poll that fails raises any other exception (a
    corrupt database, an interrupt), [snapshot] raises that exception to
    its caller and returns no snapshot. *)
Theorem snapshot_propagates_other_errors
    (w : Store) (now : Z) (self : StampedeDB) (e : exn) :
  first_fault self w = Some e ->
  e <> OperationalError ->
  snd (snapshot w now self) = Raise e
  /\ db_path (fst (snapshot w now self)) = db_path self.
Proof.
  intros Hfault Hne. pose proof (snapshot_outcomes w now self) as Hout.
  rewrite Hfault in Hout. rewrite bool_decide_eq_false_2 in Hout by exact Hne.
  split; [exact Hout |].
  unfold_snapshot.
  destruct (_conn self) as [c |] eqn:Hc; [| destruct (connect_fault w); cbn [_conn]];
    repeat (rewrite ?Hc;
            match goal with
            | |- context [query_fault w ?q] => destruct (query_fault w q)
            end); reflexivity.
Qed.

Lemma snapshot_propagates_other_errors_witness :
  snd (snapshot (corrupt_store retry_db) 41 connected_db) = Raise DatabaseError.
Proof.
  apply (snapshot_propagates_other_errors (corrupt_store retry_db) 41 connected_db
           DatabaseError eq_refl).
  discriminate.
Defined.

(** ** The job and event queries *)

#[local] Instance event_latest_first_trans : Transitive event_latest_first.
Proof. intros a b c. unfold event_latest_first, latest_first. lia. Qed.
#[local] Instance event_latest_first_total : Total event_latest_first.
Proof. intros a b. unfold event_latest_first, latest_first. lia. Qed.

Lemma StronglySorted_take {A} (R : relation A) (n : nat) (l : list A) :
  StronglySorted R l -> StronglySorted R (take n l).
Proof.
  intros Hsorted. rewrite <- (take_drop n l) in Hsorted.
  now apply StronglySorted_app_1_l in Hsorted.
Qed.

(** X10. [get_recent_events] returns at most [limit] events, newest first,
    and every one of them reports a transition row of a job of the
    catalog: it invents no event and shows a job's row once per matching
    instance. *)
Theorem recent_events_bounded_and_newest_first
    (w : Store) (limit : nat) (self self' : StampedeDB) (events : list Event) :
  get_recent_events w limit self = (self', Ok events) ->
  (length events <= limit)%nat
  /\ StronglySorted newest_first events
  /\ forall ev, ev ∈ events -> event_of (contents w) ev.
Proof.
  intros Hget.
  assert (Hev : events = select_recent_events (contents w) limit).
  { revert Hget. unfold get_recent_events, m_bind, _conn_or_raise, m_bind, connect, execute.
    destruct (_conn self); [| destruct (connect_fault w)];
      destruct (query_fault w QRecentEvents); intros [= _ H]; now subst. }
  subst events. unfold select_recent_events.
  set (joined := (tbl_job (contents w) ≫= _)).
  split; [| split].
  - rewrite length_fmap, length_take. lia.
  - apply (StronglySorted_fmap _ event_latest_first newest_first).
    + intros [j1 js1] [j2 js2] Hle. unfold event_latest_first, latest_first in Hle.
      unfold newest_first. cbn in *. lia.
    + apply StronglySorted_take, StronglySorted_merge_sort; apply _.
  - intros ev Hev. apply list_elem_of_fmap in Hev as ([j js] & -> & Hin).
    apply subseteq_take in Hin.
    apply (proj1 (order_by_elem event_latest_first _ _)) in Hin.
    subst joined. apply list_elem_of_bind in Hin as (j' & Hin & Hj).
    apply list_elem_of_bind in Hin as (ji & Hin & Hji).
    apply list_elem_of_bind in Hin as (js' & Hin & Hjs).
    case_bool_decide as Hmatch; [| inversion Hin].
    apply list_elem_of_singleton in Hin. injection Hin as -> ->.
    destruct Hmatch as [H1 H2]. now exists j', ji, js'.
Qed.

Lemma recent_events_bounded_and_newest_first_witness :
  exists events : list Event,
    get_recent_events (healthy_store retry_db) 3 connected_db = (connected_db, Ok events)
    /\ ev_timestamp <$> events = [35; 35; 20]
    /\ StronglySorted newest_first events.
Proof.
  exists (select_recent_events retry_db 3). split; [reflexivity |].
  destruct (recent_events_bounded_and_newest_first (healthy_store retry_db) 3 connected_db
              connected_db (select_recent_events retry_db 3) eq_refl) as (_ & Hsorted & _).
  split; [reflexivity | exact Hsorted].
Defined.

(** X11. [get_jobs] returns exactly one record per row of the job catalog,
    in ascending order of job id, whatever the order in which the catalog
    stores them. *)
Theorem get_jobs_one_per_job_in_id_order
    (w : Store) (self self' : StampedeDB) (rs : list JobRecord) :
  get_jobs w self = (self', Ok rs) ->
  length rs = length (tbl_job (contents w))
  /\ (job_id <$> rs) ≡ₚ (j_job_id <$> tbl_job (contents w))
  /\ (exec_job_id <$> rs) ≡ₚ (j_exec_job_id <$> tbl_job (contents w))
  /\ StronglySorted Z.le (job_id <$> rs).
Proof.
  intros Hget. apply get_jobs_rows in Hget. subst rs.
  unfold select_jobs. set (d := contents w).
  assert (Hperm : order_by job_asc (tbl_job d) ≡ₚ tbl_job d).
  { apply merge_sort_Permutation. }
  rewrite <- !list_fmap_compose.
  split; [| split; [| split]].
  - rewrite length_fmap. now rewrite Hperm.
  - change (job_id ∘ job_record d) with j_job_id. now rewrite Hperm.
  - change (exec_job_id ∘ job_record d) with j_exec_job_id. now rewrite Hperm.
  - apply (StronglySorted_fmap _ job_asc Z.le).
    + intros x y Hxy. exact Hxy.
    + apply StronglySorted_merge_sort; apply _.
Qed.

Lemma get_jobs_one_per_job_in_id_order_witness :
  j_job_id <$> tbl_job retry_db = [2; 1]
  /\ job_id <$> select_jobs retry_db = [1; 2]
  /\ StronglySorted Z.le (job_id <$> select_jobs retry_db).
Proof.
  destruct (get_jobs_one_per_job_in_id_order (healthy_store retry_db) connected_db
              connected_db (select_jobs retry_db) eq_refl) as (_ & _ & _ & Hsorted).
  split; [reflexivity |]. split; [reflexivity | exact Hsorted].
Defined.

(** ** The connection *)

(** X12. [snapshot] never closes or replaces an open connection; on an
    object without one it connects first, and keeps the new connection
    for later polls whatever the queries then do; when connecting fails
    the object stays without a connection, so the next poll tries again.
    The database path is never changed, and [__exit__] leaves the object
    closed. *)
Theorem snapshot_connection_lifecycle (w : Store) (now : Z) (self : StampedeDB) :
  db_path (fst (snapshot w now self)) = db_path self
  /\ (is_Some (_conn self) -> fst (snapshot w now self) = self)
  /\ (_conn self = None -> connect_fault w = None ->
      is_Some (_conn (fst (snapshot w now self))))
  /\ (_conn self = None -> is_Some (connect_fault w) ->
      fst (snapshot w now self) = self)
  /\ _conn (fst (__exit__ (fst (snapshot w now self)))) = None.
Proof.
  split; [| split; [| split; [| split]]].
  - unfold_snapshot.
    destruct (_conn self) as [c |] eqn:Hc; [| destruct (connect_fault w); cbn [_conn]];
      repeat (rewrite ?Hc;
              match goal with
              | |- context [query_fault w ?q] => destruct (query_fault w q)
              end); reflexivity.
  - apply snapshot_keeps_connection.
  - intros Hc Hconn. unfold_snapshot. rewrite Hc, Hconn. cbn [_conn].
    repeat match goal with
           | |- context [query_fault w ?q] => destruct (query_fault w q)
           end; cbn; eauto.
  - intros Hc [e He]. unfold_snapshot. now rewrite Hc, He.
  - reflexivity.
Qed.

Lemma snapshot_connection_lifecycle_witness :
  _conn (fst (snapshot (locked_store retry_db) 41 (__init__ "wf.stampede.db")))
  = Some "file:wf.stampede.db?mode=ro"
  /\ fst (snapshot (healthy_store retry_db) 42 connected_db) = connected_db.
Proof.
  destruct (snapshot_connection_lifecycle (healthy_store retry_db) 42 connected_db)
    as (_ & Hkeep & _).
  split; [reflexivity |]. apply Hkeep. eexists. reflexivity.
Defined.

(** ** The live queue: bindings, fallback, environment *)

(** X13. The Python bindings come first: when a bindings module imports
    and answers the query, [query_queue] returns that answer and the
    [condor_q] subprocess plays no part; when [htcondor] cannot be
    imported, or raises any [Exception] while querying, the answer of
    [htcondor2] is returned in the same way. *)
Theorem bindings_answer_wins
    (env : CondorEnv) (a : QueueArgs) (environ : gmap string string)
    (ht : Bindings) (ads : list ClassAd) :
  query_bindings ht a = Ok ads ->
  (import_module env "htcondor" = Ok ht
   \/ (import_module env "htcondor2" = Ok ht
       /\ (import_module env "htcondor" = Raise ImportError
           \/ exists ht1 e, import_module env "htcondor" = Ok ht1
                            /\ query_bindings ht1 a = Raise e
                            /\ is_Exception e = true))) ->
  snd (query_queue env a environ) = Ok ads
  /\ forall run parse,
       snd (query_queue {| import_module := import_module env;
                           subprocess_run := run; json_loads := parse |} a environ)
       = Ok ads.
Proof.
  intros Hq Himp.
  assert (Htry : forall env', import_module env' = import_module env ->
                   try_modules env' a ["htcondor"; "htcondor2"] = Ok (Some ads)).
  { intros env' Henv. cbn [try_modules]. rewrite !Henv.
    destruct Himp as [-> | [H2 [-> | (ht1 & e & -> & -> & ->)]]].
    - now rewrite Hq.
    - cbn. now rewrite H2, Hq.
    - now rewrite H2, Hq. }
  split.
  - unfold query_queue, _try_python_bindings. now rewrite (Htry env eq_refl).
  - intros run parse. unfold query_queue, _try_python_bindings. now rewrite Htry.
Qed.

Lemma bindings_answer_wins_witness :
  snd (query_queue (htcondor2_env matching_queue) default_args ∅) = Ok matching_queue.
Proof.
  apply (bindings_answer_wins (htcondor2_env matching_queue) default_args ∅
           (local_bindings matching_queue) matching_queue eq_refl).
  right. split; [reflexivity |]. left. reflexivity.
Defined.

(** The environment that [query_queue] leaves behind. *)
Lemma query_queue_environ (env : CondorEnv) (a : QueueArgs) (environ : gmap string string) :
  fst (query_queue env a environ)
  = let e1 := if truthy_str (cert_path a)
              then <["X509_USER_CERT" := opt_str (cert_path a)]> environ else environ in
    let e2 := if truthy_str (key_path a)
              then <["X509_USER_KEY" := opt_str (key_path a)]> e1 else e1 in
    let e3 := if truthy_str (password_file a)
              then <["_CONDOR_PASSWORD_FILE" := opt_str (password_file a)]> e2 else e2 in
    let e4 := if truthy_str (collector_host a)
              then setdefault "_CONDOR_COLLECTOR_HOST" (opt_str (collector_host a)) e3
              else e3 in
    if truthy_str (token_path a)
    then setdefault "_CONDOR_SEC_TOKEN_DIRECTORY" (opt_str (token_path a)) e4 else e4.
Proof.
  unfold query_queue, _try_python_bindings.
  destruct (try_modules env a ["htcondor"; "htcondor2"]) as [[ads |] | e]; reflexivity.
Qed.

Lemma setdefault_lookup (k v k' : string) (environ : gmap string string) :
  setdefault k v environ !! k'
  = if bool_decide (k' = k) then Some (default v (environ !! k)) else environ !! k'.
Proof.
  unfold setdefault. case_bool_decide as Hk.
  - subst k'. destruct (environ !! k) eqn:Hl; [exact Hl | apply lookup_insert_eq].
  - destruct (environ !! k); [reflexivity |]. apply lookup_insert_ne. congruence.
Qed.

Lemma lookup_if_insert (b : bool) (k v k' : string) (m : gmap string string) :
  (if b then <[k := v]> m else m) !! k'
  = if b && bool_decide (k' = k) then Some v else m !! k'.
Proof.
  destruct b; [| reflexivity]. cbn [andb]. case_bool_decide as Hk.
  - subst k'. apply lookup_insert_eq.
  - apply lookup_insert_ne. congruence.
Qed.

Lemma lookup_if_setdefault (b : bool) (k v k' : string) (m : gmap string string) :
  (if b then setdefault k v m else m) !! k'
  = if b && bool_decide (k' = k) then Some (default v (m !! k)) else m !! k'.
Proof.
  destruct b; [| reflexivity]. cbn [andb]. apply setdefault_lookup.
Qed.

Ltac environ_lookup :=
  rewrite ?lookup_if_setdefault, ?lookup_if_insert;
  repeat match goal with
         | |- context [bool_decide (?a = ?b)] =>
             is_ground a; is_ground b;
             let r := eval vm_compute in (bool_decide (a = b)) in
             change (bool_decide (a = b)) with r
         end;
  rewrite ?andb_false_r, ?andb_true_r.

(** X14. [query_queue] changes the process environment even when the query
    fails, and only in five variables.  The certificate, key and password
    file variables are overwritten with the arguments given; the collector
    host and token directory variables are set only when they were not set
    already, so an existing value is never replaced; no variable is ever
    removed and no other variable is touched. *)
Theorem query_queue_environment
    (env : CondorEnv) (a : QueueArgs) (environ : gmap string string) :
  let environ' := fst (query_queue env a environ) in
  (forall k, k ∉ ["X509_USER_CERT"; "X509_USER_KEY"; "_CONDOR_PASSWORD_FILE";
                  "_CONDOR_COLLECTOR_HOST"; "_CONDOR_SEC_TOKEN_DIRECTORY"] ->
     environ' !! k = environ !! k)
  /\ (truthy_str (cert_path a) = true ->
      environ' !! "X509_USER_CERT" = Some (opt_str (cert_path a)))
  /\ (truthy_str (key_path a) = true ->
      environ' !! "X509_USER_KEY" = Some (opt_str (key_path a)))
  /\ (truthy_str (password_file a) = true ->
      environ' !! "_CONDOR_PASSWORD_FILE" = Some (opt_str (password_file a)))
  /\ (forall k v, k ∈ ["_CONDOR_COLLECTOR_HOST"; "_CONDOR_SEC_TOKEN_DIRECTORY"] ->
        environ !! k = Some v -> environ' !! k = Some v)
  /\ (truthy_str (collector_host a) = true ->
      environ !! "_CONDOR_COLLECTOR_HOST" = None ->
      environ' !! "_CONDOR_COLLECTOR_HOST" = Some (opt_str (collector_host a)))
  /\ (forall k, is_Some (environ !! k) -> is_Some (environ' !! k))
  /\ (forall env', fst (query_queue env' a environ) = environ').
Proof.
  intros environ'. subst environ'. rewrite query_queue_environ. cbv zeta.
  split; [| split; [| split; [| split; [| split; [| split; [| split]]]]]].
  - intros k Hk. rewrite !elem_of_cons, elem_of_nil in Hk.
    rewrite ?lookup_if_setdefault, ?lookup_if_insert.
    rewrite !(bool_decide_eq_false_2 (k = _)) by (intros ->; tauto).
    now rewrite !andb_false_r.
  - intros Hb. environ_lookup. now rewrite Hb.
  - intros Hb. environ_lookup. now rewrite Hb.
  - intros Hb. environ_lookup. now rewrite Hb.
  - intros k v Hk Hv. rewrite !elem_of_cons, elem_of_nil in Hk.
    destruct Hk as [-> | [-> | []]]; environ_lookup; rewrite ?Hv;
      destruct (truthy_str (collector_host a)), (truthy_str (token_path a));
      reflexivity.
  - intros Hb Hnone. environ_lookup. now rewrite Hb, Hnone.
  - intros k [v Hv]. rewrite ?lookup_if_setdefault, ?lookup_if_insert.
    repeat match goal with
           | |- context [if ?b then _ else _] => destruct b
           end; rewrite ?Hv; eauto.
  - intros env'. now rewrite query_queue_environ.
Qed.

Lemma query_queue_environment_witness :
  let environ : gmap string string :=
    {[ "_CONDOR_COLLECTOR_HOST" := "old.example.org"; "HOME" := "/home/u" ]} in
  let environ' := fst (query_queue (no_bindings_env PermissionError) remote_args environ) in
  environ' !! "_CONDOR_COLLECTOR_HOST" = Some "old.example.org"
  /\ environ' !! "X509_USER_CERT" = Some "/x509/cert.pem"
  /\ environ' !! "HOME" = Some "/home/u".
Proof.
  intros environ environ'.
  destruct (query_queue_environment (no_bindings_env PermissionError) remote_args environ)
    as (Hother & Hcert & _ & _ & Hkept & _).
  split; [| split].
  - apply Hkept; [| reflexivity]. apply list_elem_of_here.
  - apply Hcert. reflexivity.
  - rewrite Hother; [reflexivity |].
    apply (bool_decide_unpack _). vm_compute. exact I.
Defined.

(** X15. [_poll_condor] never raises an [Exception] to the monitor loop:
    it returns what [query_queue] returned, or the empty list when
    [query_queue] raised an [Exception]; only an exception outside that
    class (a keyboard interrupt) passes through it.  The environment is
    what [query_queue] left. *)
Theorem poll_condor_never_raises_exception
    (a : QueueArgs) (env : CondorEnv) (environ : gmap string string) :
  match snd (_poll_condor a env environ) with
  | Ok ads =>
      snd (query_queue env a environ) = Ok ads
      \/ (ads = [] /\ exists e, snd (query_queue env a environ) = Raise e
                                /\ is_Exception e = true)
  | Raise e =>
      is_Exception e = false /\ snd (query_queue env a environ) = Raise e
  end
  /\ fst (_poll_condor a env environ) = fst (query_queue env a environ).
Proof.
  unfold _poll_condor.
  destruct (query_queue env a environ) as [environ' [ads | e]]; cbn.
  - split; [now left | reflexivity].
  - destruct (is_Exception e) eqn:He; cbn.
    + split; [| reflexivity]. right. split; [reflexivity |]. now exists e.
    + split; [now split | reflexivity].
Qed.

(** X16. The subprocess fallback reports jobs only from a successful run
    of [condor_q -json]: a non-empty answer means that the command, which
    always starts with [condor_q -json], exited with code 0 and printed
    non-blank text that parsed as a JSON list, and the answer is that
    list.  The fallback never raises a timeout, a missing executable or a
    JSON decoding error. *)
Theorem subprocess_fallback_outcomes (env : CondorEnv) (a : QueueArgs) :
  match _query_via_subprocess env a with
  | Ok ads =>
      ads <> [] ->
      exists cmd completed,
        take 2 cmd = ["condor_q"; "-json"]
        /\ subprocess_run env cmd = Ok completed
        /\ returncode completed = 0
        /\ is_blank (stdout completed) = false
        /\ json_loads env (stdout completed) = Ok (JsonList ads)
  | Raise e => subprocess_handled e = false
  end.
Proof.
  unfold _query_via_subprocess.
  match goal with |- context [subprocess_run env ?c] => set (cmd := c) end.
  destruct (subprocess_run env cmd) as [completed | e] eqn:Hrun; cbn.
  - destruct (returncode completed =? 0) eqn:Hrc; cbn; [| now intros []].
    destruct (is_blank (stdout completed)) eqn:Hblank; cbn; [now intros [] |].
    destruct (json_loads env (stdout completed)) as [[ads |] | e] eqn:Hjson; cbn.
    + intros _. exists cmd, completed. apply Z.eqb_eq in Hrc.
      repeat split; assumption || reflexivity.
    + now intros [].
    + destruct (subprocess_handled e) eqn:He; [now intros [] | exact He].
  - destruct (subprocess_handled e) eqn:He; [now intros [] | exact He].
Qed.

Lemma subprocess_fallback_outcomes_witness :
  _query_via_subprocess condor_q_env default_args = Ok matching_queue
  /\ exists cmd completed,
       subprocess_run condor_q_env cmd = Ok completed /\ returncode completed = 0.
Proof.
  pose proof (subprocess_fallback_outcomes condor_q_env default_args) as H.
  change (_query_via_subprocess condor_q_env default_args) with (Ok matching_queue) in H.
  split; [reflexivity |].
  destruct H as (cmd & completed & _ & Hrun & Hrc & _); [discriminate |].
  now exists cmd, completed.
Defined.

(** X17. When a schedd name is given but the collector cannot locate it
    (any [Exception]), the bindings query is made on the default schedd
    instead, without a sign to the caller: the jobs returned are those of
    the default schedd.  Without a schedd name no lookup is attempted. *)
Theorem schedd_lookup_falls_back (ht : Bindings) (a : QueueArgs) (e : exn) :
  (truthy_str (collector_host a) = true ->
   set_param ht "COLLECTOR_HOST" (opt_str (collector_host a)) = Ok tt) ->
  new_schedd ht = Ok tt ->
  (truthy_str (schedd_name a) = true ->
   locate_schedd ht (opt_str (collector_host a)) (opt_str (schedd_name a)) = Raise e
   /\ is_Exception e = true) ->
  query_bindings ht a
  = schedd_query ht DefaultSchedd projection
      (if truthy_str (constraint a) then constraint a else None).
Proof.
  intros Hparam Hnew Hlocate. unfold query_bindings.
  destruct (truthy_str (collector_host a)) eqn:Hc.
  - rewrite (Hparam eq_refl). cbn [bind].
    destruct (truthy_str (schedd_name a)).
    + destruct (Hlocate eq_refl) as [-> He]. cbn. now rewrite He, Hnew.
    + now rewrite Hnew.
  - cbn [bind]. destruct (truthy_str (schedd_name a)).
    + destruct (Hlocate eq_refl) as [-> He]. cbn. now rewrite He, Hnew.
    + now rewrite Hnew.
Qed.

Lemma schedd_lookup_falls_back_witness :
  query_bindings (local_bindings matching_queue) remote_args = Ok matching_queue.
Proof.
  rewrite (schedd_lookup_falls_back (local_bindings matching_queue) remote_args
             RuntimeError).
  - reflexivity.
  - reflexivity.
  - reflexivity.
  - intros _. split; reflexivity.
Defined.

(** ** The status bar and the summary *)

Lemma progress_pct_between (s : WorkflowSnapshot) :
  (0 <= progress_pct s)%Q /\ (progress_pct s <= 100)%Q.
Proof.
  unfold progress_pct. destruct (Nat.eqb_spec (total_jobs s) 0) as [Hz | Hnz].
  - split; discriminate.
  - pose proof (done_count_le_total s) as Hle.
    pose proof (Q_of_nat_pos (total_jobs s) ltac:(lia)) as HtQ.
    split.
    + apply Qle_shift_div_l; [exact HtQ |].
      rewrite Qmult_0_l. apply Qmult_le_0_compat; [discriminate |].
      apply Q_of_nat_nonneg.
    + apply Qle_shift_div_r; [exact HtQ |].
      apply Qmult_le_l; [reflexivity |]. rewrite <- Zle_Qle. lia.
Qed.

(** The green part of the bar: between 0 and the bar width, and short of
    the full width while a job is not done. *)
Lemma filled_bounds (s : WorkflowSnapshot) :
  let filled := py_int (inject_Z bar_width * progress_pct s / 100) in
  0 <= filled <= bar_width
  /\ ((done_count s < total_jobs s)%nat -> filled < bar_width).
Proof.
  intros filled. subst filled.
  destruct (progress_pct_between s) as [H0 H100].
  set (x := (inject_Z bar_width * progress_pct s / 100)%Q).
  assert (Hx0 : (0 <= x)%Q).
  { unfold x. apply Qle_shift_div_l; [reflexivity |]. rewrite Qmult_0_l.
    apply Qmult_le_0_compat; [discriminate | exact H0]. }
  assert (Hx40 : (x <= inject_Z bar_width)%Q).
  { unfold x. apply Qle_shift_div_r; [reflexivity |].
    apply Qmult_le_l; [reflexivity | exact H100]. }
  unfold py_int. rewrite (proj2 (Qle_bool_iff 0 x) Hx0).
  split.
  - split.
    + rewrite <- (Qfloor_Z 0). now apply Qfloor_resp_le.
    + rewrite <- (Qfloor_Z bar_width). now apply Qfloor_resp_le.
  - intros Hlt.
    assert (Hxlt : (x < inject_Z bar_width)%Q).
    { unfold x. apply Qlt_shift_div_r; [reflexivity |].
      apply Qmult_lt_l; [reflexivity |].
      rewrite (progress_pct_unfold s ltac:(lia)).
      apply Qlt_shift_div_r; [apply Q_of_nat_pos; lia |].
      apply Qmult_lt_l; [reflexivity |]. rewrite <- Zlt_Qlt. lia. }
    pose proof (Qfloor_le x) as Hfl.
    rewrite Zlt_Qlt. eapply Qle_lt_trans; eassumption.
Qed.

Lemma done_and_failed_le_total (s : WorkflowSnapshot) :
  (done_count s + failed_count s <= total_jobs s)%nat.
Proof.
  pose proof (labelled_counts_total (jobs s)) as Htotal.
  unfold done_count, failed_count, total_jobs. lia.
Qed.

Lemma glyphs_in_cons (style : string) (sp : Span) (spans : list Span) :
  glyphs_in style (sp :: spans)
  = ((if bool_decide (span_style sp = style) then span_times sp else 0)
     + glyphs_in style spans)%nat.
Proof.
  unfold glyphs_in. rewrite filter_cons. case_bool_decide as Hs.
  - now rewrite decide_True by exact Hs.
  - now rewrite decide_False by exact Hs.
Qed.

Ltac count_glyphs :=
  unfold glyphs, repeat_glyph; cbn [app];
  rewrite ?glyphs_in_cons; cbn [span_style span_times];
  repeat match goal with
         | |- context [bool_decide (?a = ?b)] =>
             let r := eval vm_compute in (bool_decide (a = b)) in
             change (bool_decide (a = b)) with r
         end;
  change (glyphs_in _ []) with 0%nat;
  cbn [fmap list_fmap sum_list sum_list_with span_times]; unfold id.

(** X18. The progress bar of the status panel always has exactly
    [bar_width] = 40 cells between its brackets, whatever the counts; and
    as soon as one job has failed at least one cell is red, so a failure
    is never hidden by rounding. *)
Theorem bar_text_fills_width (s : WorkflowSnapshot) :
  glyphs (bar_text s) = 42%nat
  /\ (glyphs_in "bold green" (bar_text s) + glyphs_in "bold red" (bar_text s)
      + glyphs_in "dim" (bar_text s) = 42)%nat
  /\ ((0 < failed_count s)%nat -> (1 <= glyphs_in "bold red" (bar_text s))%nat)
  /\ (failed_count s = 0%nat -> glyphs_in "bold red" (bar_text s) = 0%nat).
Proof.
  pose proof (filled_bounds s) as [Hfilled Hshort]. cbv zeta in Hfilled, Hshort.
  unfold bar_text. cbv zeta.
  set (filled := py_int (inject_Z bar_width * progress_pct s / 100)) in *.
  set (ratio := py_int (inject_Z bar_width * inject_Z (Z.of_nat (failed_count s))
                        / inject_Z (Z.of_nat (total_jobs s)))).
  unfold bar_width in *.
  destruct (Z.ltb_spec 0 (Z.of_nat (failed_count s))) as [Hf | Hf].
  - assert (Htot : (Z.of_nat (total_jobs s) =? 0) = false).
    { apply Z.eqb_neq. pose proof (done_and_failed_le_total s). lia. }
    rewrite Htot.
    assert (Hlt : filled < 40).
    { apply Hshort. pose proof (done_and_failed_le_total s). lia. }
    clearbody filled ratio. count_glyphs. repeat split; lia.
  - clearbody filled ratio. count_glyphs. repeat split; lia.
Qed.

Lemma bar_text_fills_width_witness :
  failed_count mixed_snapshot = 1%nat
  /\ (1 <= glyphs_in "bold red" (bar_text mixed_snapshot))%nat
  /\ glyphs (bar_text mixed_snapshot) = 42%nat.
Proof.
  destruct (bar_text_fills_width mixed_snapshot) as (Hall & _ & Hred & _).
  split; [reflexivity |]. split; [| exact Hall].
  apply Hred. vm_compute. lia.
Defined.



(** ** The monitor loop: single shot, interrupts, endless polling *)

Section LoopRuns.

Variable world : nat -> Tick.
Variable poll_interval : Q.
Variable queue_args : QueueArgs.
Variable db : StampedeDB.
Variable snaps : nat -> WorkflowSnapshot.
Variable queues : nat -> list ClassAd.

Hypothesis connected : is_Some (_conn db).


End LoopRuns.

(** X20. In single-shot mode [run_monitor] makes exactly one synthesis,
    prints it with the final summary and returns, without sleeping and
    however little it is allowed to run. *)
Theorem single_shot_one_cycle
    (world : nat -> Tick) (poll_interval : Q) (queue_args : QueueArgs)
    (db : StampedeDB) (environ : gmap string string)
    (snap : WorkflowSnapshot) (queue : list ClassAd) (fuel : nat) :
  is_Some (_conn db) ->
  cycle_answers world queue_args db 0%nat snap queue ->
  exists st : MonitorState,
    run_monitor world poll_interval queue_args true fuel db environ = (st, Returned)
    /\ st_trace st
       = [Refresh 0; Print snap queue (tick_ts (world 0%nat)); FinalSummary snap]
    /\ syntheses (st_trace st) = 1%nat
    /\ filter (fun a => is_sleep a = true) (st_trace st) = [].
Proof.
  intros Hconn Hans. unfold run_monitor.
  destruct (refresh_answers world queue_args db (fun _ => snap) (fun _ => queue) Hconn 0%nat
              {| st_db := db; st_environ := environ; st_trace := [] |} eq_refl Hans)
    as (env1 & ->).
  eexists. split; [reflexivity |]. cbn [emit st_trace app].
  repeat split.
Qed.

Lemma single_shot_one_cycle_witness :
  exists st : MonitorState,
    run_monitor finishing_world 2%Q default_args true 0 connected_db ∅ = (st, Returned)
    /\ syntheses (st_trace st) = 1%nat.
Proof.
  destruct (single_shot_one_cycle finishing_world 2%Q default_args connected_db ∅
              (finishing_snaps 0) [] 0%nat) as (st & Hrun & _ & Hcount & _).
  - eexists. reflexivity.
  - split; [vm_compute; reflexivity | intros environ; reflexivity].
  - exists st. split; [exact Hrun | exact Hcount].
Defined.



(** X22. An interrupt that arrives during the very first refresh is
    caught by the loop, but no snapshot has been bound yet for the final
    summary: [run_monitor] then ends in an [UnboundLocalError] without
    having shown anything.  In single-shot mode the interrupt itself
    reaches the caller. *)
Theorem interrupt_before_first_snapshot
    (world : nat -> Tick) (poll_interval : Q) (queue_args : QueueArgs)
    (db : StampedeDB) (environ : gmap string string) (fuel : nat) :
  first_fault db (tick_store (world 0%nat)) = Some KeyboardInterrupt ->
  (exists st,
     run_monitor world poll_interval queue_args false (S fuel) db environ
     = (st, Propagated UnboundLocalError)
     /\ st_trace st = [Refresh 0])
  /\ (exists st,
        run_monitor world poll_interval queue_args true fuel db environ
        = (st, Propagated KeyboardInterrupt)
        /\ st_trace st = [Refresh 0]).
Proof.
  intros Hfault.
  pose proof (snapshot_outcomes (tick_store (world 0%nat)) (tick_now (world 0%nat)) db)
    as Hout.
  rewrite Hfault in Hout. cbn in Hout.
  unfold run_monitor. cbn [live_loop]. unfold _refresh. cbn [emit st_db st_trace st_environ].
  destruct (snapshot (tick_store (world 0%nat)) (tick_now (world 0%nat)) db) as [db' r].
  cbn [snd] in Hout. subst r.
  split; eexists; (split; [reflexivity |]); reflexivity.
Qed.

Lemma interrupt_before_first_snapshot_witness :
  snd (run_monitor early_interrupt_world 2%Q default_args false 3 connected_db ∅)
  = Propagated UnboundLocalError.
Proof.
  destruct (interrupt_before_first_snapshot early_interrupt_world 2%Q default_args
              connected_db ∅ 2 eq_refl) as [(st & Hrun & _) _].
  now rewrite Hrun.
Defined.





(** ** The job table *)

(** X24. The job table has one row of six cells per job shown, in catalog
    order and headed by the job's name, and a single placeholder row when
    there is no job to show; unless all job types are asked for, only the
    compute jobs are shown. *)
Theorem job_table_rows (int_of_str : string -> option Z) (clock : nat -> Z)
    (snap : WorkflowSnapshot) (show_all : bool) (condor_jobs : option (list ClassAd)) :
  let rows := panel_rows (_make_job_table int_of_str clock snap show_all condor_jobs) in
  length rows = Nat.max 1 (length (jobs_to_show snap show_all))
  /\ Forall (fun row => length row = 6%nat) rows
  /\ (jobs_to_show snap show_all <> [] ->
      (fun row => row !! 0%nat) <$> rows
      = (fun job => Some (Plain (exec_job_id job))) <$> jobs_to_show snap show_all)
  /\ (jobs_to_show snap show_all = [] ->
      (fun row => row !! 0%nat) <$> rows = [Some (Styled "(no jobs yet)" "dim italic")])
  /\ (show_all = false ->
      forall job, job ∈ jobs_to_show snap show_all <->
                  job ∈ jobs snap /\ type_desc job = "compute").
Proof.
  intros rows. subst rows. unfold _make_job_table. cbn [panel_rows].
  set (m := build_condor_map condor_jobs).
  assert (Hnames : forall (l : list JobRecord) (c : nat -> Z),
            (fun row : list Cell => row !! 0%nat)
              <$> imap (fun i job => job_row_cells int_of_str m (c i) job) l
            = (fun job => Some (Plain (exec_job_id job))) <$> l).
  { induction l as [| x l IH]; intros c; [reflexivity |].
    rewrite imap_cons. cbn [fmap list_fmap]. f_equal. apply (IH (c ∘ S)). }
  assert (Hsix : forall (l : list JobRecord) (c : nat -> Z),
            Forall (fun row => length row = 6%nat)
              (imap (fun i job => job_row_cells int_of_str m (c i) job) l)).
  { induction l as [| x l IH]; intros c; [constructor |].
    rewrite imap_cons. constructor; [reflexivity | apply (IH (c ∘ S))]. }
  split; [| split; [| split; [| split]]].
  - destruct (jobs_to_show snap show_all) as [| x l]; [reflexivity |].
    rewrite length_imap. cbn [length]. lia.
  - destruct (jobs_to_show snap show_all) as [| x l]; [| apply Hsix].
    cbn. constructor; [reflexivity | constructor].
  - intros Hne. destruct (jobs_to_show snap show_all) as [| x l];
      [contradiction | apply Hnames].
  - intros ->. reflexivity.
  - intros -> job. unfold jobs_to_show, compute_jobs, is_compute.
    rewrite list_elem_of_filter, bool_decide_eq_true. tauto.
Qed.

Lemma job_table_rows_witness :
  exec_job_id <$> jobs_to_show mixed_snapshot false
  = ["split_ID0000001"; "plot_ID0000004"; "analyze_ID0000003"; "merge_ID0000002"]
  /\ length (panel_rows (_make_job_table no_string_status (fun _ => 9) mixed_snapshot
                           false None)) = 4%nat
  /\ (stage_in_job ∈ jobs_to_show mixed_snapshot false -> False).
Proof.
  destruct (job_table_rows no_string_status (fun _ => 9) mixed_snapshot false None)
    as (Hlen & _ & _ & _ & Hcompute).
  split; [reflexivity |]. split; [exact Hlen |].
  intros Hin. apply (Hcompute eq_refl) in Hin as [_ Htype]. discriminate Htype.
Defined.

(** X25. When the live queue lists a job more than once, the last entry
    wins: the Live column of a job whose non-empty name is the
    [DAGNodeName] of the last queue entry shows the status of that entry,
    whatever the entries before it say. *)
Theorem live_cell_last_entry_wins (int_of_str : string -> option Z)
    (earlier : list ClassAd) (cj : ClassAd) (now : Z) (job : JobRecord) :
  exec_job_id job <> "" ->
  cj !! "DAGNodeName" = Some (PStr (exec_job_id job)) ->
  build_condor_map (Some (earlier ++ [cj])%list) !! PStr (exec_job_id job) = Some cj
  /\ job_row_cells int_of_str (build_condor_map (Some (earlier ++ [cj])%list)) now job !! 5%nat
     = Some (Styled (format_job_status int_of_str (dict_get cj "JobStatus" PNone)) "cyan").
Proof.
  intros Hname Hnode.
  assert (Hkey : dict_get cj "DAGNodeName" (PStr "") = PStr (exec_job_id job)).
  { unfold dict_get. now rewrite Hnode. }
  assert (Hmap : build_condor_map (Some (earlier ++ [cj])%list) !! PStr (exec_job_id job)
                 = Some cj).
  { assert (Hfold : build_condor_map (Some (earlier ++ [cj])%list)
                    = foldl (fun condor_map cj0 =>
                               let node := dict_get cj0 "DAGNodeName" (PStr "") in
                               if truthy node then <[node := cj0]> condor_map
                               else condor_map) ∅ (earlier ++ [cj])%list).
    { unfold build_condor_map. destruct earlier; reflexivity. }
    rewrite Hfold, foldl_snoc. cbv zeta. rewrite Hkey. cbn [truthy].
    rewrite bool_decide_eq_false_2 by exact Hname. cbn [negb].
    apply lookup_insert_eq. }
  split; [exact Hmap |].
  assert (Hget : dict_get (build_condor_map (Some (earlier ++ [cj])%list))
                   (PStr (exec_job_id job)) (∅ : ClassAd) = cj).
  { unfold dict_get. now rewrite Hmap. }
  unfold job_row_cells. cbn [lookup list_lookup]. rewrite Hget.
  rewrite bool_decide_eq_false_2; [reflexivity |].
  intros Hempty. rewrite Hempty, lookup_empty in Hnode. discriminate Hnode.
Qed.

Lemma live_cell_last_entry_wins_witness :
  job_row_cells no_string_status (build_condor_map (Some duplicate_queue)) 9 running_job
    !! 5%nat
  = Some (Styled "Running" "cyan").
Proof.
  destruct (live_cell_last_entry_wins no_string_status
              [ {[ "DAGNodeName" := PStr "analyze_ID0000003"; "JobStatus" := PInt 1 ]} ]
              {[ "DAGNodeName" := PStr "analyze_ID0000003"; "JobStatus" := PInt 2 ]}
              9 running_job) as [_ Hcell].
  - discriminate.
  - reflexivity.
  - exact Hcell.
Defined.

(** ** More on the live queue *)

(** Every entry of the map built from the live queue is an entry of the
    queue, filed under its own non-empty node name. *)
Lemma condor_map_entries (cjs : list ClassAd) (m : gmap pyval ClassAd)
    (k : pyval) (cj : ClassAd) :
  foldl (fun condor_map cj0 =>
           let node := dict_get cj0 "DAGNodeName" (PStr "") in
           if truthy node then <[node := cj0]> condor_map else condor_map)
        m cjs !! k = Some cj ->
  m !! k = Some cj
  \/ (cj ∈ cjs /\ dict_get cj "DAGNodeName" (PStr "") = k /\ truthy k = true).
Proof.
  revert m. induction cjs as [| cj0 cjs IH]; intros m Hk; [now left |].
  cbn [foldl] in Hk. apply IH in Hk as [Hk | (Hin & Hkey & Htruthy)].
  - cbv zeta in Hk.
    destruct (truthy (dict_get cj0 "DAGNodeName" (PStr ""))) eqn:Ht; [| now left].
    destruct (decide (dict_get cj0 "DAGNodeName" (PStr "") = k)) as [Heq | Hne].
    + right. rewrite Heq, lookup_insert_eq in Hk. injection Hk as <-.
      split; [apply list_elem_of_here |]. split; [exact Heq | now rewrite <- Heq].
    + left. now rewrite lookup_insert_ne in Hk.
  - right. split; [now apply list_elem_of_further | now split].
Qed.

(** X26. The name-keyed map of the live queue holds only entries of the
    queue, each under its own [DAGNodeName]; entries without a node name,
    or with an empty one, are left out.  So a job with an empty name never
    gets a live status, and the Live column of a job shows the status of a
    queue entry that carries that job's name or nothing. *)
Theorem condor_map_holds_named_entries
    (int_of_str : string -> option Z) (queue : list ClassAd) (now : Z) (job : JobRecord) :
  (forall k cj, build_condor_map (Some queue) !! k = Some cj ->
     cj ∈ queue /\ dict_get cj "DAGNodeName" (PStr "") = k /\ truthy k = true)
  /\ (exec_job_id job = "" ->
      job_row_cells int_of_str (build_condor_map (Some queue)) now job !! 5%nat
      = Some (Styled "" "dim"))
  /\ (job_row_cells int_of_str (build_condor_map (Some queue)) now job !! 5%nat
      = Some (Styled "" "dim")
      \/ exists cj, cj ∈ queue
           /\ cj !! "DAGNodeName" = Some (PStr (exec_job_id job))
           /\ job_row_cells int_of_str (build_condor_map (Some queue)) now job !! 5%nat
              = Some (Styled (format_job_status int_of_str (dict_get cj "JobStatus" PNone))
                        "cyan")).
Proof.
  assert (Hentries : forall k cj, build_condor_map (Some queue) !! k = Some cj ->
            cj ∈ queue /\ dict_get cj "DAGNodeName" (PStr "") = k /\ truthy k = true).
  { intros k cj Hk.
    assert (Hfold : foldl (fun condor_map cj0 =>
                             let node := dict_get cj0 "DAGNodeName" (PStr "") in
                             if truthy node then <[node := cj0]> condor_map
                             else condor_map) (∅ : gmap pyval ClassAd) queue !! k
                    = Some cj).
    { destruct queue; exact Hk. }
    apply condor_map_entries in Hfold as [Hempty | H]; [| exact H].
    rewrite lookup_empty in Hempty. discriminate Hempty. }
  assert (Hcell : forall cj,
            build_condor_map (Some queue) !! PStr (exec_job_id job) = Some cj ->
            cj <> ∅ ->
            job_row_cells int_of_str (build_condor_map (Some queue)) now job !! 5%nat
            = Some (Styled (format_job_status int_of_str (dict_get cj "JobStatus" PNone))
                      "cyan")).
  { intros cj Hmap Hne.
    assert (Hget : dict_get (build_condor_map (Some queue)) (PStr (exec_job_id job))
                     (∅ : ClassAd) = cj).
    { unfold dict_get. now rewrite Hmap. }
    unfold job_row_cells. cbn [lookup list_lookup]. rewrite Hget.
    now rewrite bool_decide_eq_false_2 by exact Hne. }
  assert (Hmiss : build_condor_map (Some queue) !! PStr (exec_job_id job) = None ->
            job_row_cells int_of_str (build_condor_map (Some queue)) now job !! 5%nat
            = Some (Styled "" "dim")).
  { intros Hmap. rewrite (job_row_cells_miss int_of_str _ now job Hmap).
    unfold job_row_cells. cbn [lookup list_lookup].
    assert (Hget : dict_get (∅ : gmap pyval ClassAd) (PStr (exec_job_id job))
                     (∅ : ClassAd) = ∅).
    { unfold dict_get. now rewrite lookup_empty. }
    rewrite Hget. now rewrite bool_decide_eq_true_2 by reflexivity. }
  split; [exact Hentries |]. split.
  - intros Hname. apply Hmiss.
    destruct (build_condor_map (Some queue) !! PStr (exec_job_id job)) as [cj |] eqn:Hmap;
      [| reflexivity].
    apply Hentries in Hmap as (_ & _ & Htruthy). rewrite Hname in Htruthy.
    discriminate Htruthy.
  - destruct (build_condor_map (Some queue) !! PStr (exec_job_id job)) as [cj |] eqn:Hmap.
    + right. exists cj. destruct (Hentries _ _ Hmap) as (Hin & Hkey & _).
      assert (Hnode : cj !! "DAGNodeName" = Some (PStr (exec_job_id job))).
      { unfold dict_get in Hkey. destruct (cj !! "DAGNodeName") as [v |] eqn:Hv.
        - now subst v.
        - injection Hkey as Hkey. apply Hentries in Hmap as (_ & _ & Htruthy).
          rewrite <- Hkey in Htruthy. discriminate Htruthy. }
      split; [exact Hin |]. split; [exact Hnode |].
      apply (Hcell cj eq_refl). intros Hempty.
      rewrite Hempty, lookup_empty in Hnode. discriminate Hnode.
    + left. now apply Hmiss.
Qed.

Lemma condor_map_holds_named_entries_witness :
  job_row_cells no_string_status (build_condor_map (Some foreign_queue)) 9 running_job
    !! 5%nat = Some (Styled "" "dim")
  /\ forall k cj, build_condor_map (Some matching_queue) !! k = Some cj ->
       cj ∈ matching_queue.
Proof.
  destruct (condor_map_holds_named_entries no_string_status matching_queue 9 running_job)
    as (Hentries & _ & _).
  split; [reflexivity |]. intros k cj Hk. now apply (Hentries k cj).
Defined.

(** X27. When both bindings modules are used up, each either missing
    ([ImportError]) or raising an [Exception] while it queries,
    [query_queue] gives the answer of the [condor_q] subprocess.  An
    import that fails with anything but [ImportError] is not absorbed: it
    leaves [query_queue] as it is, and the subprocess is not tried. *)
Theorem bindings_exhausted_fall_back
    (env : CondorEnv) (a : QueueArgs) (environ : gmap string string) :
  ((forall m, m ∈ ["htcondor"; "htcondor2"] ->
      import_module env m = Raise ImportError
      \/ exists ht e, import_module env m = Ok ht
                      /\ query_bindings ht a = Raise e /\ is_Exception e = true) ->
   snd (query_queue env a environ) = _query_via_subprocess env a)
  /\ (forall e, import_module env "htcondor" = Raise e -> e <> ImportError ->
        snd (query_queue env a environ) = Raise e).
Proof.
  split.
  - intros Hmods.
    assert (Htry : try_modules env a ["htcondor"; "htcondor2"] = Ok None).
    { cbn [try_modules].
      destruct (Hmods "htcondor" ltac:(apply list_elem_of_here))
        as [-> | (ht1 & e1 & -> & -> & ->)];
        destruct (Hmods "htcondor2"
                    ltac:(apply list_elem_of_further, list_elem_of_here))
        as [-> | (ht2 & e2 & -> & -> & ->)]; reflexivity. }
    unfold query_queue, _try_python_bindings. now rewrite Htry.
  - intros e Himp Hne.
    unfold query_queue, _try_python_bindings. cbn [try_modules]. rewrite Himp.
    now rewrite bool_decide_eq_false_2 by exact Hne.
Qed.

Lemma bindings_exhausted_fall_back_witness :
  snd (query_queue condor_q_env default_args ∅) = Ok matching_queue.
Proof.
  rewrite (proj1 (bindings_exhausted_fall_back condor_q_env default_args ∅)).
  - reflexivity.
  - intros m _. now left.
Defined.
